(** * Automated Storybook stories for Stencil components

    A shallow embedding of [.storybook/stories/automatedStories.js]: the
    adapter that reads the metadata of compiled Stencil components and
    builds Storybook stories with generated controls.

    Conventions of the embedding.
    - JavaScript values that flow through the adapter untyped (module
      exports, story options, default values) are values of [jsval].
      An object is the list of its own enumerable properties in
      enumeration order; members inherited from [Object.prototype] are
      outside the model.  Numbers are integers.
    - A property read on [undefined] or [null] raises a [TypeError]; code
      that can raise lives in the [result] monad.
    - Property descriptors of a component ([Component.properties]) have the
      shape the Stencil compiler emits; they are records.
    - Characters are code units below 256; [\w], the [i] flag of a regular
      expression without the [u] flag and the literal patterns of the source
      only ever distinguish ASCII characters.
    - Library functions the adapter calls ([Case.camel], [Case.kebab],
      [JSON.parse], [String(...)], [path.basename], [path.dirname]) are
      variables of the sections that use them, and so are the clock read
      by [new Date()], the rules by which the DOM accepts a name or finds
      the placeholder of a template, and the outcome of calling a
      [replace] method that notes bring along. *)

From Stdlib Require Import String Ascii ZArith List Bool Lia.
From stdpp Require Import base option list gmap.
Import ListNotations.
Local Open Scope string_scope.
Local Open Scope list_scope.
Set Warnings "-register-all".

(** ** JavaScript values *)

Inductive jsval : Type :=
  | VUndefined
  | VNull
  | VBool (b : bool)
  | VNum (n : Z)
  | VStr (s : string)
  | VDate (t : Z)
  | VArr (items : list jsval)
  | VObj (callable : bool) (props : list (string * jsval)).

(** An object as the list of its own properties. *)
Abbreviation obj := (list (string * jsval)).

Inductive exn : Type :=
  | TypeError (msg : string)
  | SyntaxError (msg : string)
  | InvalidCharacterError (msg : string).

Inductive result (A : Type) : Type :=
  | Ok (a : A)
  | Throw (e : exn).
Arguments Ok {A} a.
Arguments Throw {A} e.

Definition bind {A B : Type} (m : result A) (k : A -> result B) : result B :=
  match m with
  | Ok a => k a
  | Throw e => Throw e
  end.

Notation "'let!' x ':=' m 'in' k" := (bind m (fun x => k))
  (at level 10, x name, m at level 100, k at level 200, only parsing).

(** [try { body } catch (e) { handler }] *)
Definition try_catch {A : Type} (body : result A) (handler : exn -> A) : A :=
  match body with
  | Ok a => a
  | Throw e => handler e
  end.

Module Js.

(** ToBoolean *)
Definition truthy (v : jsval) : bool :=
  match v with
  | VUndefined | VNull => false
  | VBool b => b
  | VNum n => negb (Z.eqb n 0)
  | VStr s => negb (String.eqb s "")
  | VDate _ | VArr _ | VObj _ _ => true
  end.

(** [a || b] *)
Definition or (a b : jsval) : jsval := if truthy a then a else b.

Definition is_nullish (v : jsval) : bool :=
  match v with
  | VUndefined | VNull => true
  | _ => false
  end.

(** [typeof v === 'function'] and [typeof v === 'string'] *)
Definition is_function (v : jsval) : bool :=
  match v with
  | VObj true _ => true
  | _ => false
  end.

Definition is_string (v : jsval) : bool :=
  match v with
  | VStr _ => true
  | _ => false
  end.

(** [o[k]] on an object known to be one: [undefined] when [k] is not an
    own property. *)
Fixpoint lookup (o : obj) (k : string) : jsval :=
  match o with
  | [] => VUndefined
  | (k', v) :: o' => if String.eqb k' k then v else lookup o' k
  end.

Fixpoint has_own (o : obj) (k : string) : bool :=
  match o with
  | [] => false
  | (k', _) :: o' => String.eqb k' k || has_own o' k
  end.

(** [o[k] = v]: an existing property keeps its place, a new one goes
    last. *)
Fixpoint set (o : obj) (k : string) (v : jsval) : obj :=
  match o with
  | [] => [(k, v)]
  | (k', v') :: o' =>
      if String.eqb k' k then (k', v) :: o' else (k', v') :: set o' k v
  end.

(** [Object.keys(o)] *)
Definition keys (o : obj) : list string := map fst o.

(** [v.k] for the property names the adapter reads from untyped values
    ([prototype], [is], [encapsulation], [name], [default], [states],
    [args], [argTypes], [notes]): none of them is a member of a
    primitive wrapper or of an array. *)
Definition get (v : jsval) (k : string) : result jsval :=
  match v with
  | VUndefined => Throw (TypeError "Cannot read properties of undefined")
  | VNull => Throw (TypeError "Cannot read properties of null")
  | VObj _ props => Ok (lookup props k)
  | VBool _ | VNum _ | VStr _ | VDate _ | VArr _ => Ok VUndefined
  end.

Definition chars (s : string) : list string :=
  map (fun c => String c EmptyString) (list_ascii_of_string s).

(** Digits of an array index, for the keys of a spread array or
    string. *)
Definition digit (n : nat) : string :=
  String (ascii_of_nat (48 + n)) EmptyString.

Fixpoint index_key_fuel (fuel n : nat) : string :=
  match fuel with
  | O => digit (n mod 10)
  | S fuel' =>
      if Nat.ltb n 10 then digit n
      else index_key_fuel fuel' (n / 10) ++ digit (n mod 10)
  end.

Definition index_key (n : nat) : string := index_key_fuel n n.

Definition indexed {A : Type} (f : A -> jsval) (l : list A) : obj :=
  imap (fun i x => (index_key i, f x)) l.

(** [{ ...v }]: the own enumerable properties of [v]. *)
Definition spread (v : jsval) : obj :=
  match v with
  | VObj _ props => props
  | VArr items => indexed (fun x => x) items
  | VStr s => indexed VStr (chars s)
  | VUndefined | VNull | VBool _ | VNum _ | VDate _ => []
  end.

End Js.

(** ** Strings and the regular expressions of the source *)

Module Str.

Definition quote : ascii := "'"%char.
Definition pipe : ascii := "|"%char.
Definition hyphen : ascii := "-"%char.

Definition is_quote (c : ascii) : bool := Ascii.eqb c quote.

Definition between (lo hi n : nat) : bool := Nat.leb lo n && Nat.leb n hi.

(** [\w] is [[A-Za-z0-9_]] *)
Definition is_word (c : ascii) : bool :=
  let n := nat_of_ascii c in
  between 48 57 n || between 65 90 n || between 97 122 n || Nat.eqb n 95.

(** [(\w|-)] *)
Definition is_word_or_hyphen (c : ascii) : bool :=
  is_word c || Ascii.eqb c hyphen.

(** WhiteSpace and LineTerminator code units below 256, as removed by
    [String.prototype.trim]. *)
Definition is_space (c : ascii) : bool :=
  let n := nat_of_ascii c in
  between 9 13 n || Nat.eqb n 32 || Nat.eqb n 160.

Definition lower_char (c : ascii) : ascii :=
  let n := nat_of_ascii c in
  if between 65 90 n then ascii_of_nat (n + 32) else c.

(** [s.toLowerCase()] on ASCII letters; also the case folding of the [i]
    flag, which without the [u] flag never identifies an ASCII character
    with a non-ASCII one. *)
Fixpoint toLowerCase (s : string) : string :=
  match s with
  | EmptyString => EmptyString
  | String c s' => String (lower_char c) (toLowerCase s')
  end.

(** [/^(?:w1|...|wn)$/i.test(s)] for lower-case words [wi] *)
Definition test_words_i (words : list string) (s : string) : bool :=
  existsb (String.eqb (toLowerCase s)) words.

(** [s.indexOf(needle) !== -1] *)
Fixpoint contains (needle s : string) : bool :=
  String.prefix needle s ||
  match s with
  | EmptyString => false
  | String _ s' => contains needle s'
  end.

(** After an opening quote: one or more characters of [cls], then a
    closing quote.  The quote is not in [cls], so the greedy run is the
    only way to match. *)
Fixpoint quoted_run (cls : ascii -> bool) (seen : bool) (s : string) : bool :=
  match s with
  | EmptyString => false
  | String c s' =>
      if cls c then quoted_run cls true s'
      else is_quote c && seen
  end.

(** [/('C+')/g] matches somewhere in [s], for a character class [C] *)
Fixpoint test_quoted (cls : ascii -> bool) (s : string) : bool :=
  match s with
  | EmptyString => false
  | String c s' => (is_quote c && quoted_run cls false s') || test_quoted cls s'
  end.

(** [s.replace(/.../g, '')] for a pattern that matches single characters *)
Fixpoint remove (p : ascii -> bool) (s : string) : string :=
  match s with
  | EmptyString => EmptyString
  | String c s' => if p c then remove p s' else String c (remove p s')
  end.

Fixpoint trimStart (s : string) : string :=
  match s with
  | EmptyString => EmptyString
  | String c s' => if is_space c then trimStart s' else s
  end.

Fixpoint trimEnd (s : string) : string :=
  match s with
  | EmptyString => EmptyString
  | String c s' =>
      match trimEnd s' with
      | EmptyString => if is_space c then EmptyString else String c EmptyString
      | r => String c r
      end
  end.

Definition trim (s : string) : string := trimEnd (trimStart s).

(** [s.split(sep)] for a non-empty separator.  [skip] counts the
    characters of a separator still to be passed over, [cur] is the piece
    being collected. *)
Fixpoint split_go (sep : string) (skip : nat) (cur : string) (s : string)
  : list string :=
  match s with
  | EmptyString => [cur]
  | String c s' =>
      match skip with
      | S k => split_go sep k cur s'
      | O =>
          if String.prefix sep s
          then cur :: split_go sep (String.length sep - 1) EmptyString s'
          else split_go sep 0 (cur ++ String c EmptyString) s'
      end
  end.

Definition split (sep s : string) : list string := split_go sep 0 EmptyString s.

(** Every character of [s] satisfies [p]. *)
Fixpoint all (p : ascii -> bool) (s : string) : bool :=
  match s with
  | EmptyString => true
  | String c s' => p c && all p s'
  end.

(** ['w'] *)
Definition quoted (w : string) : string :=
  String quote (w ++ String quote EmptyString).

(** [s.replace(/from/g, to)] for a literal, non-empty [from] *)
Fixpoint replace_go (from to : string) (skip : nat) (s : string) : string :=
  match s with
  | EmptyString => EmptyString
  | String c s' =>
      match skip with
      | S k => replace_go from to k s'
      | O =>
          if String.prefix from s
          then to ++ replace_go from to (String.length from - 1) s'
          else String c (replace_go from to 0 s')
      end
  end.

Definition replaceAll (from to s : string) : string := replace_go from to 0 s.

End Str.

(** ** Component metadata *)

(** A property descriptor of [Component.properties] as the Stencil compiler
    emits it.  ['attr'] (legacy) and ['attribute'] are own properties only
    of props that are reflected to an attribute: a descriptor as stored has
    [A := option string], and inside [getControlForProp], which is only
    called once ['attribute'] is known to be present, [A := string]. *)
Record Property (A : Type) : Type := mkProperty {
  attribute : A;
  attr : option string;
  type : string;
  complexType_original : string;
  defaultValue : jsval
}.
Arguments mkProperty {A}.
Arguments attribute {A}.
Arguments attr {A}.
Arguments type {A}.
Arguments complexType_original {A}.
Arguments defaultValue {A}.

(** The [{ args, argTypes }] pair: the story's control options on the way
    in, the generated controls on the way out. *)
Record Controls : Type := mkControls {
  args : obj;
  argTypes : obj
}.

(** [{ default, control }] as returned by [getControlForProp] *)
Record PropControl : Type := mkPropControl {
  pc_default : jsval;
  pc_control : jsval
}.

(** A Stencil component class: [properties] is [None] when
    [Component.properties] is missing (or falsy). *)
Record Component : Type := mkComponent {
  name : jsval;
  is_ : jsval;   (* [Component.is], the tag name *)
  properties : option (list (string * Property (option string)))
}.

Definition plain (props : obj) : jsval := VObj false props.

(** [c.control.type] of a control [c] *)
Definition controlType (c : jsval) : result jsval :=
  let! inner := Js.get c "control" in
  Js.get inner "type".

Section ControlGeneration.

(** [Case.camel], [JSON.parse] ([None] when it throws) and the time that
    [new Date()] reads during the call of [getControlForProp] at hand *)
Variable camel : string -> string.
Variable JSON_parse : string -> option jsval.
Variable now : Z.

Definition primitive_types : list string := ["number"; "boolean"; "object"].
Definition basic_types : list string := ["string"; "number"; "boolean"; "object"].

(** [o.match(/('(\w|-)+')/g) ? o.replace(/'|\|/gi, '').trim() : o] *)
Definition selectOption (o : string) : string :=
  if Str.test_quoted Str.is_word_or_hyphen o
  then Str.trim (Str.remove (fun c => Str.is_quote c || Ascii.eqb c Str.pipe) o)
  else o.

Definition selectOptions (original : string) : list string :=
  map selectOption (Str.split " | " original).

Definition text_control : jsval :=
  plain [("defaultValue", VStr ""); ("control", plain [("type", VStr "text")])].

Definition typed_control (t : string) : jsval :=
  plain [("control", plain [("type", VStr t)])].

Definition select_control (options : list string) : jsval :=
  plain [("control",
          plain [("type", VStr "select"); ("options", VArr (map VStr options))])].

Definition date_control : jsval := typed_control "date".

(** The arms of the [if / else if] chain of [getControlForProp] that picks
    the control; [Fallthrough] is the chain ending with no arm taken or
    with the inner [if] of the string arm not taken. *)
Inductive Branch : Type :=
  | Override
  | PrimitiveType
  | StringSelect
  | DateAttribute
  | Fallthrough.

Definition controlBranch (prop : Property string) (argTypesOptions : jsval)
  : Branch :=
  if Js.truthy argTypesOptions then Override
  else if Str.test_words_i primitive_types (type prop) then PrimitiveType
  else if Str.test_words_i ["string"] (type prop) then
    if negb (Str.test_words_i basic_types (complexType_original prop))
    then StringSelect
    else Fallthrough
  else if Str.contains "date" (attribute prop) then DateAttribute
  else Fallthrough.

(** What the chain leaves in [control] and in [defaultVal]. *)
Definition chooseControl (prop : Property string) (argTypesOptions : jsval)
  : jsval * jsval :=
  let defaultVal := VStr "" in
  let control := text_control in
  match controlBranch prop argTypesOptions with
  | Override => (argTypesOptions, defaultVal)
  | PrimitiveType => (typed_control (Str.toLowerCase (type prop)), defaultVal)
  | StringSelect =>
      (select_control (selectOptions (complexType_original prop)), defaultVal)
  | DateAttribute => (date_control, VDate now)
  | Fallthrough => (control, defaultVal)
  end.

(** The body of the [try] block. *)
Definition parseDefault (d : jsval) : result jsval :=
  match d with
  | VStr s =>
      if Str.test_quoted Str.is_word s || Str.contains "''" s
      then
        if Str.contains "''" s then Ok (VStr "Example Label")
        else Ok (VStr (Str.remove Str.is_quote s))
      else
        match JSON_parse s with
        | Some v => Ok v
        | None => Throw (SyntaxError "JSON.parse")
        end
  | _ => Ok d
  end.

(** The [catch] block. *)
Definition defaultFallback (d : jsval) (e : exn) : jsval :=
  if Js.is_string d then d else VUndefined.

Definition chooseDefault (prop : Property string) (argsOption defaultVal : jsval)
  : jsval :=
  if Js.truthy argsOption then argsOption
  else if Js.truthy (defaultValue prop)
  then try_catch (parseDefault (defaultValue prop)) (defaultFallback (defaultValue prop))
  else defaultVal.

(** [controlOptions.args[propCamel] || controlOptions.args[prop.attribute]]
    and the same for [argTypes]: control options have to be defined using
    camelCase. *)
Definition argsOption (prop : Property string) (controlOptions : Controls)
  : jsval :=
  Js.or (Js.lookup (args controlOptions) (camel (attribute prop)))
        (Js.lookup (args controlOptions) (attribute prop)).

Definition argTypesOptions (prop : Property string) (controlOptions : Controls)
  : jsval :=
  Js.or (Js.lookup (argTypes controlOptions) (camel (attribute prop)))
        (Js.lookup (argTypes controlOptions) (attribute prop)).

Definition getControlForProp (prop : Property string) (controlOptions : Controls)
  : PropControl :=
  let '(control, defaultVal) :=
    chooseControl prop (argTypesOptions prop controlOptions) in
  let defaultVal := chooseDefault prop (argsOption prop controlOptions) defaultVal in
  {| pc_default := defaultVal;
     pc_control := plain (Js.set (Js.spread control) "defaultValue" defaultVal) |}.

(** [if (property.hasOwnProperty('attr')) property.attribute = property.attr] *)
Definition normalize (property : Property (option string))
  : Property (option string) :=
  match attr property with
  | Some a =>
      mkProperty (Some a) (attr property) (type property)
        (complexType_original property) (defaultValue property)
  | None => property
  end.

(** [property.hasOwnProperty('attribute')], with the descriptor as
    [getControlForProp] then reads it *)
Definition withAttribute (property : Property (option string))
  : option (Property string) :=
  match attribute property with
  | Some a =>
      Some (mkProperty a (attr property) (type property)
              (complexType_original property) (defaultValue property))
  | None => None
  end.

(** A descriptor has the ['attribute'] own property once normalized. *)
Definition hasAttribute (property : Property (option string)) : Prop :=
  attribute (normalize property) <> None.

(** One turn of the [forEach] of [getPropsWithControlValues]: the
    descriptor is normalized, and if it then has ['attribute'] its control
    is added under [key]. *)
Definition addControl (controlOptions : Controls) (controls : Controls)
  (entry : string * Property (option string)) : Controls :=
  let '(key, property) := entry in
  match withAttribute (normalize property) with
  | Some prop =>
      let control := getControlForProp prop controlOptions in
      {| args := Js.set (args controls) key (pc_default control);
         argTypes := Js.set (argTypes controls) key (pc_control control) |}
  | None => controls
  end.

End ControlGeneration.

Section ComponentControlGeneration.

(** [now i] is the time at which the descriptor at position [i] of
    [Component.properties] is processed: every call of [getControlForProp]
    reads the clock for itself. *)
Variable camel : string -> string.
Variable JSON_parse : string -> option jsval.
Variable now : nat -> Z.

(** The [forEach] of [getPropsWithControlValues], from the descriptor at
    position [i] on. *)
Fixpoint addControls (controlOptions : Controls) (i : nat)
  (entries : list (string * Property (option string))) (controls : Controls)
  : Controls :=
  match entries with
  | [] => controls
  | entry :: rest =>
      addControls controlOptions (S i) rest
        (addControl camel JSON_parse (now i) controlOptions controls entry)
  end.

(** [getPropsWithControlValues] returns the controls; the component comes
    back with its descriptors normalized in place.  The entries of
    [properties] are visited in [Object.keys] order. *)
Definition getPropsWithControlValues (C : Component) (controlOptions : Controls)
  : Component * Controls :=
  let entries := from_option id [] (properties C) in
  ({| name := name C; is_ := is_ C;
      properties := option_map (map (fun e => (fst e, normalize (snd e)))) (properties C) |},
   addControls controlOptions 0 entries {| args := []; argTypes := [] |}).

End ComponentControlGeneration.

(** ** Finding the component of a module and building the configs *)

(** A webpack [require.context]: [ctx.keys()] and the call [ctx(route)],
    which yields the namespace object of the module. *)
Record Context : Type := mkContext {
  ctx_keys : list string;
  ctx_load : string -> obj
}.

(** [array.reduce(f, init)] for a callback that can throw *)
Fixpoint reduce {A B : Type} (f : B -> A -> result B) (l : list A) (b : B)
  : result B :=
  match l with
  | [] => Ok b
  | a :: l' => let! b' := f b a in reduce f l' b'
  end.

(** The callback of [find] in [getComponentFromExports]: does the export
    quack like a Stencil class component? *)
Definition quacks (_export : jsval) : result bool :=
  let! p := Js.get _export "prototype" in
  if Js.truthy p then
    let! i := Js.get _export "is" in
    if Js.truthy i then
      let! e := Js.get _export "encapsulation" in
      Ok (Js.truthy e)
    else Ok false
  else Ok false.

(** [Object.keys(_module).find(exportKey => ...)] *)
Fixpoint findExportKey (_module : obj) (exportKeys : list string)
  : result (option string) :=
  match exportKeys with
  | [] => Ok None
  | exportKey :: rest =>
      let! b := quacks (Js.lookup _module exportKey) in
      if b then Ok (Some exportKey) else findExportKey _module rest
  end.

(** [_module[key]]: when [find] found nothing, [key] is [undefined] and the
    property read is the one named ["undefined"]. *)
Definition getComponentFromExports (_module : obj) : result jsval :=
  let! key := findExportKey _module (Js.keys _module) in
  Ok (Js.lookup _module (from_option id "undefined" key)).

(** An export that is neither [undefined] nor [null], and an export that
    does not pass the shape check. *)
Definition nonNullish (x : string * jsval) : Prop := Js.is_nullish (snd x) = false.
Definition failsCheck (x : string * jsval) : Prop := quacks (snd x) <> Ok true.

Section Notes.

(** What the call [notes.replace(/\\\|/g, '` `')] returns or raises when
    [notes] is an object that has a [replace] method of its own. *)
Variable callReplace : jsval -> result jsval.

(** [if (notes) return notes.replace(/\\\|/g, '` `')]: a string has the
    [replace] of strings; another truthy value must bring a [replace]
    method, or the call raises. *)
Definition cleanNotes (notes : jsval) : result jsval :=
  if Js.truthy notes then
    match notes with
    | VStr s => Ok (VStr (Str.replaceAll "\|" "` `" s))
    | VObj _ props =>
        if Js.is_function (Js.lookup props "replace") then callReplace notes
        else Throw (TypeError "notes.replace is not a function")
    | _ => Throw (TypeError "notes.replace is not a function")
    end
  else Ok VUndefined.

End Notes.

Section GeneratorConfigs.

(** [path.basename], [path.dirname], [String(v)] and the call of a
    [replace] method of notes that are an object *)
Variable path_basename : string -> string.
Variable path_dirname : string -> string.
Variable ToString : jsval -> string.
Variable callReplace : jsval -> result jsval.

(** The key of a computed property [[v]: ...] *)
Definition propertyKey (v : jsval) : string :=
  match v with
  | VStr s => s
  | _ => ToString v
  end.

(** What [buildGeneratorConfigs] has done so far: the accumulator object of
    the [reduce] and the lines written with [console.warn]. *)
Record Build : Type := mkBuild {
  configs : obj;
  warnings : list string
}.

(** The accumulator after a route for which no component was found. *)
Definition warned (b : Build) (compRoute : string) : Build :=
  {| configs := configs b;
     warnings := warnings b ++ [("Couldn't load component " ++ compRoute)%string] |}.

(** The config of a component that has a story module whose default export
    is not a function. *)
Definition storyConfig (Component _export : jsval) : result jsval :=
  let! states := Js.get _export "states" in
  let! args := Js.get _export "args" in
  let! argTypes := Js.get _export "argTypes" in
  let! rawNotes := Js.get _export "notes" in
  let! notes := cleanNotes callReplace rawNotes in
  Ok (plain [("Component", Component); ("states", states); ("args", args);
             ("argTypes", argTypes); ("notes", notes)]).

(** The callback of [componentRoutes.reduce].  [storyRoute] is [None] when
    [find] returns [undefined]; a route that is found is tested for
    truthiness like any string. *)
Definition addConfig (componentsCtx storiesCtx : Context) (b : Build)
  (compRoute : string) : result Build :=
  let _module := ctx_load componentsCtx compRoute in
  let! Component := getComponentFromExports _module in
  let dirName := ("/" ++ path_basename (path_dirname compRoute) ++ "/")%string in
  let storyRoute :=
    List.find (fun k => Str.contains dirName k) (ctx_keys storiesCtx) in
  if negb (Js.truthy Component) then Ok (warned b compRoute)
  else
    let! componentName := Js.get Component "name" in
    let assign (v : jsval) : Build :=
      {| configs := Js.set (configs b) (propertyKey componentName) v;
         warnings := warnings b |} in
    match storyRoute with
    | Some route =>
        if Js.truthy (VStr route) then
          let _export := Js.lookup (ctx_load storiesCtx route) "default" in
          if Js.is_function _export then Ok (assign _export)
          else
            let! config := storyConfig Component _export in
            Ok (assign config)
        else Ok (assign (plain [("Component", Component)]))
    | None => Ok (assign (plain [("Component", Component)]))
    end.

Definition buildGeneratorConfigs (componentsCtx storiesCtx : Context)
  : result Build :=
  reduce (addConfig componentsCtx storiesCtx) (ctx_keys componentsCtx)
    {| configs := []; warnings := [] |}.

End GeneratorConfigs.

(** ** The DOM the stories are rendered to *)

Module Dom.

(** An element: its local name, its attributes, what was assigned to
    [innerHTML], then the nodes appended with [appendChild]. *)
Inductive Element : Type :=
  | mkElement (localName : string) (attributes : list (string * string))
      (innerHTML : string) (childNodes : list Element).

(** What the browser decides: which names [createElement] and
    [setAttribute] accept, and whether the markup assigned to the
    [innerHTML] of a container parses to a tree in which
    [querySelector('.placeholder')] finds an element. *)
Record Rules : Type := mkRules {
  validElementName : string -> bool;
  validAttributeName : string -> bool;
  findsPlaceholder : string -> bool
}.

(** [document.createElement(tagName)] raises on a name that is not valid;
    in an HTML document the local name is the tag name in lower case. *)
Definition createElement (rules : Rules) (tagName : string) : result Element :=
  if validElementName rules tagName
  then Ok (mkElement (Str.toLowerCase tagName) [] "" [])
  else Throw (InvalidCharacterError tagName).

Fixpoint set_assoc (l : list (string * string)) (k v : string)
  : list (string * string) :=
  match l with
  | [] => [(k, v)]
  | (k', v') :: l' =>
      if String.eqb k' k then (k', v) :: l' else (k', v') :: set_assoc l' k v
  end.

Definition remove_assoc (l : list (string * string)) (k : string)
  : list (string * string) :=
  List.filter (fun e => negb (String.eqb (fst e) k)) l.

(** [el.setAttribute(k, v)] raises on a name that is not valid; on an
    HTML element the name of an attribute is lower-cased.
    [el.removeAttribute(k)] does not look at the name. *)
Definition setAttribute (rules : Rules) (el : Element) (k v : string)
  : result Element :=
  if validAttributeName rules k then
    match el with
    | mkElement t attrs html kids =>
        Ok (mkElement t (set_assoc attrs (Str.toLowerCase k) v) html kids)
    end
  else Throw (InvalidCharacterError k).

Definition removeAttribute (el : Element) (k : string) : Element :=
  match el with
  | mkElement t attrs html kids =>
      mkElement t (remove_assoc attrs (Str.toLowerCase k)) html kids
  end.

Definition set_innerHTML (el : Element) (html : string) : Element :=
  match el with
  | mkElement t attrs _ _ => mkElement t attrs html []
  end.

Definition appendChild (el child : Element) : Element :=
  match el with
  | mkElement t attrs html kids => mkElement t attrs html (kids ++ [child])
  end.

Definition localName (el : Element) : string :=
  match el with mkElement t _ _ _ => t end.

Definition attributes (el : Element) : list (string * string) :=
  match el with mkElement _ attrs _ _ => attrs end.

Definition innerHTML (el : Element) : string :=
  match el with mkElement _ _ html _ => html end.

Definition childNodes (el : Element) : list Element :=
  match el with mkElement _ _ _ kids => kids end.

(** A container [div] of a story: the markup of [getStencilTemplate] and
    the component element appended to its [.placeholder]. *)
Record Container : Type := mkContainer {
  markup : string;
  placeholder : Element
}.

End Dom.

(** ** Stories *)

(** An entry of a [children] array: [{ tag, innerText, props, children }].
    A missing [children] renders like an empty one. *)
Inductive Child : Type :=
  | mkChild (tag innerText : jsval) (props : option obj) (children : list Child).

(** A state of a story.  [s_props] is [None] when [props] is missing. *)
Record State : Type := mkState {
  s_title : jsval;
  s_description : jsval;
  s_tag : jsval;
  s_props : option obj;
  s_children : list Child;
  s_argTypes : jsval
}.

(** Arrays of states, state objects and the main element are shared and
    mutated: they live in a heap. *)
Abbreviation loc := positive.

Inductive cell : Type :=
  | CArr (items : list loc)
  | CState (s : State)
  | CMain (content : list Dom.Container).

Abbreviation heap := (gmap loc cell).

Definition alloc (h : heap) (c : cell) : loc * heap :=
  let l := fresh (dom h) in (l, <[l := c]> h).

(** The argument of [createStencilStory].  [cfg_states] is the caller's
    array, if any; [cfg_args] and [cfg_argTypes] are [None] when
    [undefined], which the parameter defaults turn into [{}]. *)
Record StoryConfig : Type := mkStoryConfig {
  cfg_Component : Component;
  cfg_notes : jsval;
  cfg_states : option loc;
  cfg_args : option obj;
  cfg_argTypes : option obj
}.

(** What the render function of a story has captured. *)
Record Closure : Type := mkClosure {
  cl_mainEl : loc;
  cl_states : loc;
  cl_tag : jsval;
  cl_argTypes : obj
}.

(** A call [stories.add(name, render, storyOpts)] *)
Record Story : Type := mkStory {
  story_name : jsval;
  story_render : Closure;
  story_opts : obj
}.

Definition default_title : string :=
  "Default state (use Controls below to edit props):".

Definition defaultState (C : Component) : State :=
  {| s_title := VStr default_title;
     s_description := VUndefined;
     s_tag := is_ C;
     s_props := Some [];
     s_children := [mkChild (VStr "span") (VStr "Default") None []];
     s_argTypes := VUndefined |}.

(** The default state after a render: only [props] and [argTypes] change. *)
Definition defaultStateWith (C : Component) (props : option obj) (argTypes : jsval)
  : State :=
  {| s_title := VStr default_title;
     s_description := VUndefined;
     s_tag := is_ C;
     s_props := props;
     s_children := [mkChild (VStr "span") (VStr "Default") None []];
     s_argTypes := argTypes |}.

Section Stories.

Variable camel : string -> string.
Variable kebab : string -> string.
Variable JSON_parse : string -> option jsval.
Variable now : nat -> Z.
Variable ToString : jsval -> string.
Variable browser : Dom.Rules.

(** Conversion to a string in a template literal, a concatenation or a
    DOM string argument *)
Definition str (v : jsval) : string :=
  match v with
  | VStr s => s
  | _ => ToString v
  end.

Definition nl : string := String (ascii_of_nat 10) EmptyString.
Definition dq : string := String (ascii_of_nat 34) EmptyString.

Definition getStencilTemplate (title description : jsval) : string :=
  (nl ++
   "          <div class=" ++ dq ++ "component-area" ++ dq ++ ">" ++ nl ++
   "              <h2>" ++ str title ++ "</h2>" ++ nl ++
   "              " ++
   (if Js.truthy description then "<p>" ++ str description ++ "</p>" else "") ++ nl ++
   "              <div class=" ++ dq ++ "placeholder" ++ dq ++ ">" ++ nl ++
   "                <!-- the component will be inserted here -->" ++ nl ++
   "              </div>" ++ nl ++
   "          </div>" ++ nl ++
   "      ")%string.

(** [Object.keys(props).forEach(prop => props[prop] ? el.setAttribute(...)
    : el.removeAttribute(...))], with [rename] the spelling of the
    attribute name; the loop ends at the first name that [setAttribute]
    refuses. *)
Fixpoint applyProps (rename : string -> string) (el : Dom.Element) (props : obj)
  : result Dom.Element :=
  match props with
  | [] => Ok el
  | e :: rest =>
      let! el' :=
        if Js.truthy (snd e)
        then Dom.setAttribute browser el (rename (fst e)) (str (snd e))
        else Ok (Dom.removeAttribute el (rename (fst e))) in
      applyProps rename el' rest
  end.

(** [if (props) { ... }] *)
Definition applyOptionalProps (rename : string -> string) (el : Dom.Element)
  (props : option obj) : result Dom.Element :=
  match props with
  | Some props => applyProps rename el props
  | None => Ok el
  end.

(** [childEl.innerHTML = innerText]: the setter reads [null] as the empty
    string. *)
Definition markupOf (innerText : jsval) : string :=
  match innerText with
  | VNull => ""
  | _ => str innerText
  end.

(** [createNodes(el, elements)]: the element made for one entry, and the
    loop that appends them.  An entry whose tag or whose attribute name is
    refused raises before its node is appended. *)
Fixpoint createNode (c : Child) : result Dom.Element :=
  match c with
  | mkChild tag innerText props children =>
      let! childEl := Dom.createElement browser (str tag) in
      let childEl := Dom.set_innerHTML childEl (markupOf innerText) in
      let! childEl := applyOptionalProps id childEl props in
      (fix appendNodes (el : Dom.Element) (elements : list Child)
         : result Dom.Element :=
         match elements with
         | [] => Ok el
         | c' :: rest =>
             let! node := createNode c' in
             appendNodes (Dom.appendChild el node) rest
         end) childEl children
  end.

Fixpoint createNodes (el : Dom.Element) (elements : list Child)
  : result Dom.Element :=
  match elements with
  | [] => Ok el
  | c :: rest =>
      let! node := createNode c in
      createNodes (Dom.appendChild el node) rest
  end.

(** The body of [states.forEach] in the render function, up to the
    container that is appended to the main element.  The container is a
    [div]; reading [.placeholder] from it gives [null] when the markup has
    lost its placeholder, and [appendChild] on [null] raises. *)
Definition renderState (tag : jsval) (s : State) : result Dom.Container :=
  let! componentEl := Dom.createElement browser (str tag) in
  let! componentEl := applyOptionalProps kebab componentEl (s_props s) in
  let! componentEl := createNodes componentEl (s_children s) in
  let markup := getStencilTemplate (s_title s) (s_description s) in
  if Dom.findsPlaceholder browser markup
  then Ok {| Dom.markup := markup; Dom.placeholder := componentEl |}
  else Throw (TypeError "Cannot read properties of null").

(** [states.forEach(...)]: the containers appended to the main element,
    in order, and how the loop ended.  A state that raises ends the loop;
    the containers of the states before it have been appended. *)
Fixpoint renderStates (tag : jsval) (states : list State)
  : list Dom.Container * result unit :=
  match states with
  | [] => ([], Ok tt)
  | s :: rest =>
      match renderState tag s with
      | Ok container =>
          let '(containers, outcome) := renderStates tag rest in
          (container :: containers, outcome)
      | Throw e => ([], Throw e)
      end
  end.

Definition stateAt (h : heap) (l : loc) : option State :=
  match h !! l with
  | Some (CState s) => Some s
  | _ => None
  end.

(** What the render function hands back: the main element, unless the
    loop over the states raised. *)
Definition renderOutcome (mainEl : loc) (outcome : result unit) : result loc :=
  match outcome with
  | Ok _ => Ok mainEl
  | Throw e => Throw e
  end.

(** The render function [args => { ... return mainEl; }]: the heap it
    leaves, and the main element it returns or the exception it raises.
    [None] stands for a heap in which the captured references do not lead
    to an array of state objects. *)
Definition render (cl : Closure) (args : obj) (h : heap)
  : option (heap * result loc) :=
  match h !! cl_states cl with
  | Some (CArr (first :: rest)) =>
      match stateAt h first with
      | Some s0 =>
          let s0' :=
            {| s_title := s_title s0; s_description := s_description s0;
               s_tag := s_tag s0; s_props := Some args;
               s_children := s_children s0;
               s_argTypes := plain (cl_argTypes cl) |} in
          let h := <[first := CState s0']> h in
          match mapM (stateAt h) (first :: rest) with
          | Some states =>
              let '(containers, outcome) := renderStates (cl_tag cl) states in
              Some (<[cl_mainEl cl := CMain containers]> h,
                    renderOutcome (cl_mainEl cl) outcome)
          | None => None
          end
      | None => None
      end
  | _ => None
  end.

(** The elements of [states && states.length ? states.slice(0) : []] *)
Definition cloneStates (h : heap) (states : option loc) : option (list loc) :=
  match states with
  | None => Some []
  | Some a =>
      match h !! a with
      | Some (CArr items) => Some items
      | _ => None
      end
  end.

Definition createStencilStory (config : StoryConfig) (stories : list Story)
  (h : heap) : option (heap * list Story * Component) :=
  let C := cfg_Component config in
  let '(mainEl, h) := alloc h (CMain []) in
  let '(C', controls) :=
    getPropsWithControlValues camel JSON_parse now C
      {| args := from_option id [] (cfg_args config);
         argTypes := from_option id [] (cfg_argTypes config) |} in
  let storyOpts :=
    if Js.truthy (cfg_notes config)
    then [("notes", cfg_notes config); ("args", plain (args controls));
          ("argTypes", plain (argTypes controls))]
    else [("args", plain (args controls)); ("argTypes", plain (argTypes controls))] in
  let tag := is_ C in
  match cloneStates h (cfg_states config) with
  | Some items =>
      let '(states, h) := alloc h (CArr items) in
      let '(first, h) := alloc h (CState (defaultState C)) in
      let h := <[states := CArr (first :: items)]> h in
      Some (h,
            stories ++
            [{| story_name := name C;
                story_render :=
                  {| cl_mainEl := mainEl; cl_states := states; cl_tag := tag;
                     cl_argTypes := argTypes controls |};
                story_opts := storyOpts |}],
            C')
  | None => None
  end.

(** Renders in a row, each with its own args; a render that raised has
    left its heap all the same. *)
Fixpoint renders (cl : Closure) (argss : list obj) (h : heap) : option heap :=
  match argss with
  | [] => Some h
  | args :: rest =>
      match render cl args h with
      | Some (h', _) => renders cl rest h'
      | None => None
      end
  end.

(** The generated controls of the component of a config. *)
Definition controlsOf (config : StoryConfig) : Controls :=
  snd (getPropsWithControlValues camel JSON_parse now (cfg_Component config)
         {| args := from_option id [] (cfg_args config);
            argTypes := from_option id [] (cfg_argTypes config) |}).

End Stories.

(** What holds of the heap between the renders of a story made in the heap
    [h0] from the states [items]: the story owns three cells that [h0] does
    not have, its array starts with its default state, and the cells of
    [h0] are as they were. *)
Record story_inv (h0 : heap) (C : Component) (cl : Closure) (items : list loc)
  (first : loc) (h : heap) : Prop := {
  inv_mainEl_new : cl_mainEl cl ∉ dom h0;
  inv_states_new : cl_states cl ∉ dom h0;
  inv_first_new : first ∉ dom h0;
  inv_mainEl_states : cl_mainEl cl <> cl_states cl;
  inv_mainEl_first : cl_mainEl cl <> first;
  inv_states_first : cl_states cl <> first;
  inv_array : h !! cl_states cl = Some (CArr (first :: items));
  inv_default : exists props argTypes,
      h !! first = Some (CState (defaultStateWith C props argTypes));
  inv_frame : forall l, l ∈ dom h0 -> h !! l = h0 !! l
}.



(** ** Notions for stating further properties *)

(** An export on which the shape check ran and failed. *)
Definition scanned (x : string * jsval) : Prop := quacks (snd x) = Ok false.

(** The route is one for which [buildGeneratorConfigs] finds no
    component; the text of the warning it then writes. *)
Definition componentMissing (componentsCtx : Context) (compRoute : string) : bool :=
  match getComponentFromExports (ctx_load componentsCtx compRoute) with
  | Ok Component => negb (Js.truthy Component)
  | Throw _ => false
  end.

Definition warningFor (compRoute : string) : string :=
  ("Couldn't load component " ++ compRoute)%string.

(** A key of the accumulator that stands for a component found on one of
    the routes. *)
Definition namesComponent (ToString : jsval -> string) (componentsCtx : Context)
  (routes : list string) (k : string) : Prop :=
  exists compRoute Component componentName,
    In compRoute routes /\
    getComponentFromExports (ctx_load componentsCtx compRoute) = Ok Component /\
    Js.truthy Component = true /\
    Js.get Component "name" = Ok componentName /\
    k = propertyKey ToString componentName.

(** Notes that bring a [replace] method of their own: an object with a
    callable own property of that name. *)
Definition ownReplace (notes : jsval) : bool :=
  match notes with
  | VObj _ props => Js.is_function (Js.lookup props "replace")
  | _ => false
  end.

(** A character that is neither a single quote nor a [|]. *)
Definition unquoted (c : ascii) : bool :=
  negb (Str.is_quote c || Ascii.eqb c Str.pipe).


(** The attribute a prop is written to. *)
Definition attributeName (rename : string -> string) (e : string * jsval) : string :=
  Str.toLowerCase (rename (fst e)).

Definition attributeOf (ToString : jsval -> string) (rename : string -> string)
  (e : string * jsval) : string * string :=
  (attributeName rename e, str ToString (snd e)).

(** ** Sample inputs *)

Module Sample.

(** Stand-ins for the library functions: a [JSON.parse] that knows the
    literals [true], [false] and [null] and rejects every other text the
    samples give it, as the real one does. *)
Definition JSON_parse (s : string) : option jsval :=
  if String.eqb s "true" then Some (VBool true)
  else if String.eqb s "false" then Some (VBool false)
  else if String.eqb s "null" then Some VNull
  else None.

Definition camel (s : string) : string := s.
Definition kebab (s : string) : string := s.
Definition now : Z := 1600000000000.

(** A clock for the descriptors of a component, one tick apart. *)
Definition clock (i : nat) : Z := (now + Z.of_nat i)%Z.
Definition ToString (v : jsval) : string :=
  match v with
  | VUndefined => "undefined"
  | VNull => "null"
  | VBool true => "true"
  | VBool false => "false"
  | VStr s => s
  | _ => "[object Object]"
  end.
(** A [replace] method that returns its receiver, and one that returns
    a text with an escaped pipe in it. *)
Definition callReplace (notes : jsval) : result jsval := Ok notes.
Definition escapingReplace (notes : jsval) : result jsval := Ok (VStr "a \| b").
Definition replacing : jsval := VObj false [("replace", VObj true [])].

(** [path.basename] and [path.dirname] on routes without a trailing
    slash *)
Definition path_basename (s : string) : string :=
  List.last (Str.split "/" s) "".
Definition path_dirname (s : string) : string :=
  String.concat "/" (List.removelast (Str.split "/" s)).

Definition noOptions : Controls := {| args := []; argTypes := [] |}.

(** The [color] prop of [MyButton]:
    [@Prop() color?: 'primary' | 'secondary' = 'primary'] *)
Definition color : Property string :=
  mkProperty "color" None "string" "'primary' | 'secondary'" (VStr "'primary'").

(** [@Prop({ reflect: true }) disabled?: boolean = false] *)
Definition disabled : Property string :=
  mkProperty "disabled" None "boolean" "boolean" (VStr "false").

(** [@Prop({ reflect: true }) elevation?: boolean = false] *)
Definition elevation : Property string :=
  mkProperty "elevation" None "boolean" "boolean" (VStr "false").

(** [@Prop() shape?: 'full' | 'round' | 'smooth' = 'smooth'] *)
Definition shape : Property string :=
  mkProperty "shape" None "string" "'full' | 'round' | 'smooth'" (VStr "'smooth'").

(** [@Prop() size?: 'large' | 'medium' | 'small' = 'medium'] *)
Definition size : Property string :=
  mkProperty "size" None "string" "'large' | 'medium' | 'small'" (VStr "'medium'").

(** A prop with an array default: [@Prop() items: string[] = ['a', 'b']] *)
Definition items : Property string :=
  mkProperty "items" None "unknown" "string[]" (VStr "['a', 'b']").

(** A prop whose default is not JSON: [@Prop() count: number = 1 + 1] *)
Definition count : Property string :=
  mkProperty "count" None "number" "number" (VStr "1 + 1").

(** A string prop named after a date. *)
Definition updated : Property string :=
  mkProperty "date-updated" None "string" "string" VUndefined.

(** An untyped prop named after a date, with an empty default text. *)
Definition startDate : Property string :=
  mkProperty "start-date" None "any" "any" (VStr "").

(** A label whose default is the empty string literal:
    [@Prop() label: string = ''] *)
Definition label : Property string :=
  mkProperty "label" None "string" "string" (VStr "''").

(** A union of string literals, one of them made of two words:
    [@Prop() greeting: 'Hello World' | 'Bye'] *)
Definition greeting : Property string :=
  mkProperty "greeting" None "string" "'Hello World' | 'Bye'" VUndefined.

(** Story options that override the control of [color]. *)
Definition colorPicker : jsval :=
  plain [("control", plain [("type", VStr "color")])].

Definition colorOptions : Controls :=
  {| args := []; argTypes := [("color", colorPicker)] |}.

(** A [Case.camel] for attribute names: the hyphens go and the letter
    after each one is capitalized. *)
Definition upper_char (c : ascii) : ascii :=
  let n := nat_of_ascii c in
  if Str.between 97 122 n then ascii_of_nat (n - 32) else c.

Fixpoint camelFrom (capitalize : bool) (s : string) : string :=
  match s with
  | EmptyString => EmptyString
  | String c rest =>
      if Ascii.eqb c "-" then camelFrom true rest
      else String (if capitalize then upper_char c else c) (camelFrom false rest)
  end.

Definition camelCase (s : string) : string := camelFrom false s.

(** A number prop whose attribute has a hyphen, [@Prop() maxLength: number],
    and story options that override its control: under the attribute name
    only, under both names, and with [null] where a control would be. *)
Definition maxLength : Property string :=
  mkProperty "max-length" None "number" "number" VUndefined.

Definition range : jsval := plain [("control", plain [("type", VStr "range")])].

Definition byAttribute : Controls :=
  {| args := []; argTypes := [("max-length", range)] |}.

Definition byBoth : Controls :=
  {| args := []; argTypes := [("max-length", range); ("maxLength", colorPicker)] |}.

Definition nulled : Controls :=
  {| args := []; argTypes := [("maxLength", VNull)] |}.

(** A descriptor as stored in [Component.properties]. *)
Definition stored (p : Property string) : Property (option string) :=
  mkProperty (Some (attribute p)) (attr p) (type p) (complexType_original p)
    (defaultValue p).

(** A descriptor of an older compiler, with ['attr'] only, and one of a
    prop that is not reflected to an attribute. *)
Definition legacy : Property (option string) :=
  mkProperty None (Some "legacy") "string" "string" VUndefined.

Definition internal : Property (option string) :=
  mkProperty None None "unknown" "Map<string, string>" VUndefined.

(** The component [MyButton], with two more descriptors, and a component
    without [properties]. *)
Definition MyButtonComponent : Component :=
  {| name := VStr "MyButton";
     is_ := VStr "my-button";
     properties :=
       Some [("color", stored color); ("disabled", stored disabled);
             ("elevation", stored elevation); ("shape", stored shape);
             ("size", stored size); ("legacy", legacy); ("internal", internal)] |}.

Definition Bare : Component :=
  {| name := VStr "Bare"; is_ := VStr "my-bare"; properties := None |}.

(** The class [MyButton] as an export of its compiled module, a class
    without [encapsulation], and an export that is not a class. *)
Definition MyButton : jsval :=
  VObj true [("name", VStr "MyButton"); ("prototype", plain []);
             ("is", VStr "my-button"); ("encapsulation", VStr "shadow")].

Definition Unscoped : jsval :=
  VObj true [("name", VStr "Unscoped"); ("prototype", plain []);
             ("is", VStr "my-unscoped")].

Definition Blank : jsval :=
  VObj true [("name", VStr "Blank"); ("prototype", plain []);
             ("is", VStr ""); ("encapsulation", VStr "shadow")].

Definition version : jsval := VStr "1.0.0".

Definition route : string := "./components/my-button/my-button.js".

Definition components (_module : obj) : Context :=
  {| ctx_keys := [route]; ctx_load := fun _ => _module |}.

Definition noStories : Context :=
  {| ctx_keys := []; ctx_load := fun _ => [] |}.

(** A story of [MyButton] with one extra state; the caller's array of
    states is cell 1 of the heap and its only element cell 2. *)
Definition secondary : State :=
  {| s_title := VStr "Secondary";
     s_description := VStr "The secondary color";
     s_tag := VUndefined;
     s_props := Some [("color", VStr "secondary"); ("disabled", VBool false)];
     s_children := [mkChild (VStr "span") (VStr "Cancel") None []];
     s_argTypes := VUndefined |}.

Definition callerHeap : heap :=
  <[1%positive := CArr [2%positive]]> (<[2%positive := CState secondary]> ∅).

Definition config : StoryConfig :=
  {| cfg_Component := MyButtonComponent;
     cfg_notes := VUndefined;
     cfg_states := Some 1%positive;
     cfg_args := None;
     cfg_argTypes := None |}.

Definition liveArgs : obj := [("color", VStr "primary"); ("disabled", VBool true)].

(** A browser for the samples.  It accepts the names made of a letter or
    an underscore followed by word characters and hyphens, all of which
    the DOM accepts, and so refuses, as the DOM does, the empty name and
    a name with a blank in it; it finds the placeholder in a markup that
    has the placeholder [div] of the template. *)
Definition nameStart (c : ascii) : bool :=
  Str.is_word c && negb (Str.between 48 57 (nat_of_ascii c)).

Definition validName (s : string) : bool :=
  match s with
  | EmptyString => false
  | String c rest => nameStart c && Str.all Str.is_word_or_hyphen rest
  end.

Definition browser : Dom.Rules :=
  {| Dom.validElementName := validName;
     Dom.validAttributeName := validName;
     Dom.findsPlaceholder :=
       Str.contains ("<div class=" ++ dq ++ "placeholder" ++ dq ++ ">")%string |}.

(** The containers of the default state under [liveArgs] and of
    [secondary]. *)
Definition defaultContainer : Dom.Container :=
  {| Dom.markup := getStencilTemplate ToString (VStr default_title) VUndefined;
     Dom.placeholder :=
       Dom.mkElement "my-button" [("color", "primary"); ("disabled", "true")] ""
         [Dom.mkElement "span" [] "Default" []] |}.

Definition secondaryContainer : Dom.Container :=
  {| Dom.markup :=
       getStencilTemplate ToString (VStr "Secondary") (VStr "The secondary color");
     Dom.placeholder :=
       Dom.mkElement "my-button" [("color", "secondary")] ""
         [Dom.mkElement "span" [] "Cancel" []] |}.

(** A state with a child whose attribute name has a blank in it, and the
    caller's heap with that state in second place. *)
Definition spaced : State :=
  {| s_title := VStr "Spaced";
     s_description := VUndefined;
     s_tag := VUndefined;
     s_props := None;
     s_children :=
       [mkChild (VStr "span") (VStr "Icon") (Some [("data x", VStr "1")]) []];
     s_argTypes := VUndefined |}.

Definition spacedHeap : heap :=
  <[1%positive := CArr [2%positive; 3%positive]]>
    (<[2%positive := CState secondary]> (<[3%positive := CState spaced]> ∅)).

Definition spacedConfig : StoryConfig :=
  {| cfg_Component := MyButtonComponent; cfg_notes := VUndefined;
     cfg_states := Some 1%positive; cfg_args := None; cfg_argTypes := None |}.

(** A state the caller puts in place of [secondary] after the story was
    made. *)
Definition danger : State :=
  {| s_title := VStr "Danger";
     s_description := VUndefined;
     s_tag := VUndefined;
     s_props := Some [("color", VStr "danger")];
     s_children := [];
     s_argTypes := VUndefined |}.

Definition dangerContainer : Dom.Container :=
  {| Dom.markup := getStencilTemplate ToString (VStr "Danger") VUndefined;
     Dom.placeholder := Dom.mkElement "my-button" [("color", "danger")] "" [] |}.

(** Two component modules, one of them without a component, and a story
    module for [MyButton] that has no default export. *)
Definition unscopedRoute : string := "./components/my-unscoped/my-unscoped.js".

Definition library : Context :=
  {| ctx_keys := [route; unscopedRoute];
     ctx_load := fun r =>
       if String.eqb r route then [("MyButton", MyButton)]
       else [("Unscoped", Unscoped)] |}.

Definition storyRoute : string := "./components/my-button/my-button.stories.tsx".

Definition storiesWithoutDefault : Context :=
  {| ctx_keys := [storyRoute]; ctx_load := fun _ => [("helper", version)] |}.

End Sample.

(** * Properties *)

(** ** Strings *)

Module StrFacts.

Lemma word_not_quote c : Str.is_word c = true -> Str.is_quote c = false.
Proof.
  destruct c as [[] [] [] [] [] [] [] []]; vm_compute; congruence.
Qed.

Lemma word_or_hyphen_not_quote c :
  Str.is_word_or_hyphen c = true -> Str.is_quote c = false.
Proof.
  destruct c as [[] [] [] [] [] [] [] []]; vm_compute; congruence.
Qed.

Lemma word_or_hyphen_not_pipe c :
  Str.is_word_or_hyphen c = true -> Ascii.eqb c Str.pipe = false.
Proof.
  destruct c as [[] [] [] [] [] [] [] []]; vm_compute; congruence.
Qed.

Lemma word_or_hyphen_not_space c :
  Str.is_word_or_hyphen c = true -> Str.is_space c = false.
Proof.
  destruct c as [[] [] [] [] [] [] [] []]; vm_compute; congruence.
Qed.

Lemma word_is_word_or_hyphen c :
  Str.is_word c = true -> Str.is_word_or_hyphen c = true.
Proof. unfold Str.is_word_or_hyphen. intros ->. reflexivity. Qed.

Lemma all_impl (p q : ascii -> bool) s :
  (forall c, p c = true -> q c = true) -> Str.all p s = true -> Str.all q s = true.
Proof.
  intros Hpq. induction s as [|c s IH]; simpl; [easy|].
  intros [Hc Hs]%andb_true_iff. rewrite (Hpq c Hc). simpl. auto.
Qed.

(** A run of characters of the class followed by a quote closes the
    quotation, provided the run is not empty. *)
Lemma quoted_run_closes cls w rest seen :
  (forall c, cls c = true -> Str.is_quote c = false) ->
  Str.all cls w = true ->
  (w <> EmptyString \/ seen = true) ->
  Str.quoted_run cls seen (w ++ String Str.quote rest) = true.
Proof.
  intros Hcls. revert seen. induction w as [|c w IH]; intros seen Hall Hne; simpl.
  - destruct (cls Str.quote) eqn:Eq.
    + apply Hcls in Eq. discriminate.
    + destruct Hne as [Hne | ->]; [congruence | reflexivity].
  - simpl in Hall. apply andb_true_iff in Hall as [Hc Hw].
    rewrite Hc. apply IH; auto.
Qed.

Lemma test_quoted_quoted cls w :
  (forall c, cls c = true -> Str.is_quote c = false) ->
  Str.all cls w = true -> w <> EmptyString ->
  Str.test_quoted cls (Str.quoted w) = true.
Proof.
  intros Hcls Hall Hne. unfold Str.quoted. simpl.
  rewrite quoted_run_closes; auto.
Qed.

Lemma prefix_head_ne a p b s :
  a <> b -> String.prefix (String a p) (String b s) = false.
Proof.
  intros Hne. cbn [String.prefix]. destruct (ascii_dec a b); congruence.
Qed.

Lemma contains_cons needle c s :
  Str.contains needle (String c s)
  = String.prefix needle (String c s) || Str.contains needle s.
Proof. reflexivity. Qed.

Lemma append_cons c s t : (String c s ++ t)%string = String c (s ++ t).
Proof. reflexivity. Qed.

Lemma append_nil s : (s ++ "")%string = s.
Proof.
  induction s as [|c s IH]; [reflexivity|]. rewrite append_cons, IH. reflexivity.
Qed.

Lemma not_quote_ne c : negb (Str.is_quote c) = true -> Str.quote <> c.
Proof.
  unfold Str.is_quote. intros H <-. rewrite Ascii.eqb_refl in H. discriminate.
Qed.

Lemma contains_two_quotes_tail w :
  Str.all (fun c => negb (Str.is_quote c)) w = true ->
  Str.contains "''" (w ++ "'") = false.
Proof.
  induction w as [|c w IH]; [reflexivity|].
  cbn [Str.all]. intros [Hc Hw]%andb_true_iff.
  rewrite append_cons, contains_cons, (IH Hw), orb_false_r.
  apply prefix_head_ne, not_quote_ne, Hc.
Qed.

Lemma contains_two_quotes_quoted w :
  Str.all (fun c => negb (Str.is_quote c)) w = true -> w <> EmptyString ->
  Str.contains "''" (Str.quoted w) = false.
Proof.
  intros Hall Hne. unfold Str.quoted. change Str.quote with "'"%char.
  rewrite contains_cons, (contains_two_quotes_tail w Hall), orb_false_r.
  destruct w as [|c w]; [congruence|].
  cbn [Str.all] in Hall. apply andb_true_iff in Hall as [Hc _].
  rewrite append_cons.
  change "''" with (String "'"%char (String "'"%char EmptyString)).
  cbn [String.prefix]. destruct (ascii_dec "'"%char "'"%char); [|congruence].
  apply prefix_head_ne, (not_quote_ne c), Hc.
Qed.

Lemma remove_none p s :
  Str.all (fun c => negb (p c)) s = true -> Str.remove p s = s.
Proof.
  induction s as [|c s IH]; simpl; [reflexivity|].
  intros [Hc Hs]%andb_true_iff. apply negb_true_iff in Hc. rewrite Hc, IH; auto.
Qed.

Lemma remove_app p s t : Str.remove p (s ++ t) = (Str.remove p s ++ Str.remove p t)%string.
Proof.
  induction s as [|c s IH]; simpl; [reflexivity|].
  rewrite IH. destruct (p c); reflexivity.
Qed.

Lemma remove_quoted p w :
  p Str.quote = true ->
  Str.all (fun c => negb (p c)) w = true ->
  Str.remove p (Str.quoted w) = w.
Proof.
  intros Hq Hall. unfold Str.quoted. cbn [Str.remove]. rewrite Hq, remove_app.
  cbn [Str.remove]. rewrite Hq, remove_none by assumption.
  apply append_nil.
Qed.

Lemma trimEnd_no_space s :
  Str.all (fun c => negb (Str.is_space c)) s = true -> Str.trimEnd s = s.
Proof.
  induction s as [|c s IH]; simpl; [reflexivity|].
  intros [Hc Hs]%andb_true_iff. apply negb_true_iff in Hc.
  rewrite (IH Hs), Hc. destruct s; reflexivity.
Qed.

Lemma trim_no_space s :
  Str.all (fun c => negb (Str.is_space c)) s = true -> Str.trim s = s.
Proof.
  intros Hall. unfold Str.trim.
  assert (Str.trimStart s = s) as ->.
  { destruct s as [|c s]; simpl; [reflexivity|].
    simpl in Hall. apply andb_true_iff in Hall as [Hc _].
    apply negb_true_iff in Hc. rewrite Hc. reflexivity. }
  apply trimEnd_no_space, Hall.
Qed.

Lemma append_assoc_cons w c post :
  ((w ++ String c EmptyString) ++ post)%string = (w ++ String c post)%string.
Proof.
  induction w as [|a w IH]; [reflexivity|]. rewrite !append_cons, IH. reflexivity.
Qed.

Lemma quoted_app w post :
  (Str.quoted w ++ post)%string = String Str.quote (w ++ String Str.quote post).
Proof.
  unfold Str.quoted. rewrite append_cons, append_assoc_cons. reflexivity.
Qed.

(** What the matcher of [/('C+')/] decides: a quote, a non-empty run of
    characters of the class and a quote occur somewhere in the text. *)
Lemma quoted_run_inv cls seen s :
  Str.quoted_run cls seen s = true ->
  exists w post,
    s = (w ++ String Str.quote post)%string /\ Str.all cls w = true /\
    (w <> EmptyString \/ seen = true).
Proof.
  revert seen. induction s as [|c s IH]; intros seen; [discriminate|].
  cbn [Str.quoted_run]. destruct (cls c) eqn:Ec.
  - intros (w & post & -> & Hall & _)%IH.
    exists (String c w), post. cbn [Str.all]. rewrite Ec, Hall.
    repeat split. left. discriminate.
  - intros [Hq ->]%andb_true_iff. apply Ascii.eqb_eq in Hq. subst c.
    exists EmptyString, s. repeat split. right. reflexivity.
Qed.

Lemma test_quoted_iff cls s :
  (forall c, cls c = true -> Str.is_quote c = false) ->
  Str.test_quoted cls s = true <->
  exists pre w post,
    s = (pre ++ Str.quoted w ++ post)%string /\
    w <> EmptyString /\ Str.all cls w = true.
Proof.
  intros Hcls. split.
  - induction s as [|c s IH]; [discriminate|].
    cbn [Str.test_quoted]. intros [H | H]%orb_true_iff.
    + apply andb_true_iff in H as [Hq Hrun]. apply Ascii.eqb_eq in Hq. subst c.
      apply quoted_run_inv in Hrun as (w & post & -> & Hall & [Hne | Hf]);
        [|discriminate].
      exists EmptyString, w, post. repeat split; [|assumption..].
      rewrite quoted_app. reflexivity.
    + destruct (IH H) as (pre & w & post & -> & Hne & Hall).
      exists (String c pre), w, post. repeat split; assumption.
  - intros (pre & w & post & -> & Hne & Hall). rewrite quoted_app.
    induction pre as [|c pre IH].
    + change (Str.test_quoted cls (String Str.quote (w ++ String Str.quote post)) = true).
      cbn [Str.test_quoted]. rewrite quoted_run_closes by auto.
      unfold Str.is_quote. rewrite Ascii.eqb_refl. reflexivity.
    + rewrite append_cons. cbn [Str.test_quoted]. rewrite IH. apply orb_true_r.
Qed.


(** [split] loses nothing: joining the pieces with the separator gives
    the text back. *)
Lemma split_go_skip sep q cur t :
  Str.split_go sep (String.length q) cur (q ++ t) = Str.split_go sep 0 cur t.
Proof.
  induction q as [|c q IH]; [reflexivity|].
  rewrite append_cons. cbn [String.length Str.split_go]. exact IH.
Qed.

Lemma split_go_nonempty sep skip cur s : Str.split_go sep skip cur s <> [].
Proof.
  revert skip cur. induction s as [|c s IH]; intros skip cur; [discriminate|].
  cbn [Str.split_go]. destruct skip; [|apply IH].
  destruct (String.prefix sep (String c s)); [discriminate | apply IH].
Qed.

Lemma prefix_app p t :
  String.prefix p t = true -> exists post, t = (p ++ post)%string.
Proof.
  revert t. induction p as [|a p IH]; intros t; [exists t; reflexivity|].
  destruct t as [|b t]; [discriminate|].
  cbn [String.prefix]. destruct (ascii_dec a b) as [->|]; [|discriminate].
  intros (post & ->)%IH. exists post. reflexivity.
Qed.

Lemma length_append s t :
  String.length (s ++ t) = String.length s + String.length t.
Proof.
  induction s as [|c s IH]; [reflexivity|].
  rewrite append_cons. cbn [String.length]. rewrite IH. reflexivity.
Qed.

Lemma split_go_join sep n :
  sep <> EmptyString ->
  forall s cur, String.length s <= n ->
  String.concat sep (Str.split_go sep 0 cur s) = (cur ++ s)%string.
Proof.
  intros Hsep. induction n as [|n IH]; intros s cur Hlen.
  - destruct s; [|cbn [String.length] in Hlen; lia].
    cbn [Str.split_go String.concat]. symmetry. apply append_nil.
  - destruct s as [|c s]; [cbn [Str.split_go String.concat]; symmetry; apply append_nil|].
    cbn [String.length] in Hlen. cbn [Str.split_go].
    destruct (String.prefix sep (String c s)) eqn:Ep.
    + apply prefix_app in Ep as (t & Ht).
      destruct sep as [|a q]; [congruence|].
      rewrite append_cons in Ht. injection Ht as -> ->.
      cbn [String.length]. rewrite Nat.sub_succ, Nat.sub_0_r, split_go_skip.
      pose proof (split_go_nonempty (String a q) 0 EmptyString t) as Hne.
      pose proof (IH t EmptyString) as Ht.
      rewrite length_append in Hlen. specialize (Ht ltac:(lia)).
      destruct (Str.split_go (String a q) 0 EmptyString t) as [|x xs]; [congruence|].
      cbn [String.concat] in *. rewrite Ht. reflexivity.
    + rewrite IH by lia. apply append_assoc_cons.
Qed.

Lemma split_join sep s :
  sep <> EmptyString -> String.concat sep (Str.split sep s) = s.
Proof.
  intros Hsep. unfold Str.split.
  rewrite (split_go_join sep (String.length s) Hsep s EmptyString (le_n _)).
  reflexivity.
Qed.

End StrFacts.

Example split_union :
  Str.split " | " "'primary' | 'secondary'" = ["'primary'"; "'secondary'"].
Proof. reflexivity. Qed.

Example split_without_separator :
  Str.split " | " "" = [""] /\ Str.split " | " "string" = ["string"] /\
  Str.split " | " "a | " = ["a"; ""].
Proof. repeat split; reflexivity. Qed.

Example test_quoted_examples :
  Str.test_quoted Str.is_word "['a', 'b']" = true /\
  Str.test_quoted Str.is_word "''" = false /\
  Str.test_quoted Str.is_word "'my-value'" = false /\
  Str.test_quoted Str.is_word_or_hyphen "'my-value'" = true /\
  Str.test_quoted Str.is_word_or_hyphen "'Hello World'" = false.
Proof. repeat split; reflexivity. Qed.

Example test_words_examples :
  Str.test_words_i primitive_types "Boolean" = true /\
  Str.test_words_i primitive_types "string" = false /\
  Str.test_words_i basic_types "STRING" = true /\
  Str.test_words_i basic_types "strings" = false.
Proof. repeat split; reflexivity. Qed.

(** ** Objects *)

Module JsFacts.

Lemma lookup_set_eq o k v : Js.lookup (Js.set o k v) k = v.
Proof.
  induction o as [|[k' v'] o IH]; simpl.
  - rewrite String.eqb_refl. reflexivity.
  - destruct (String.eqb k' k) eqn:E; simpl; rewrite E; auto.
Qed.

Lemma lookup_set_ne o k k' v :
  k <> k' -> Js.lookup (Js.set o k v) k' = Js.lookup o k'.
Proof.
  intros Hne. induction o as [|[k0 v0] o IH]; simpl.
  - destruct (String.eqb_spec k k'); congruence.
  - destruct (String.eqb_spec k0 k) as [->|]; simpl.
    + destruct (String.eqb_spec k k'); congruence.
    + rewrite IH. reflexivity.
Qed.

Lemma keys_set o k v k' :
  In k' (Js.keys (Js.set o k v)) <-> k' = k \/ In k' (Js.keys o).
Proof.
  unfold Js.keys. induction o as [|[k0 v0] o IH]; simpl.
  - intuition congruence.
  - destruct (String.eqb_spec k0 k) as [->|Hne]; simpl.
    + intuition congruence.
    + rewrite IH. intuition congruence.
Qed.

Lemma truthy_or_false a b :
  Js.truthy (Js.or a b) = false <-> Js.truthy a = false /\ Js.truthy b = false.
Proof.
  unfold Js.or. destruct (Js.truthy a) eqn:E.
  - rewrite E. intuition congruence.
  - intuition congruence.
Qed.

Lemma truthy_nonempty_string s : s <> EmptyString -> Js.truthy (VStr s) = true.
Proof.
  intros Hne. simpl. destruct (String.eqb_spec s ""); [congruence | reflexivity].
Qed.

End JsFacts.

(** ** Controls *)

Section ControlFacts.

Variable camel : string -> string.
Variable JSON_parse : string -> option jsval.
Variable now : Z.

Lemma getControlForProp_unfold prop opts :
  let chosen := chooseControl now prop (argTypesOptions camel prop opts) in
  let d := chooseDefault JSON_parse prop (argsOption camel prop opts) (snd chosen) in
  getControlForProp camel JSON_parse now prop opts
  = {| pc_default := d;
       pc_control := plain (Js.set (Js.spread (fst chosen)) "defaultValue" d) |}.
Proof.
  unfold getControlForProp. cbv zeta.
  destruct (chooseControl now prop (argTypesOptions camel prop opts)). reflexivity.
Qed.

Lemma pc_default_eq prop opts :
  pc_default (getControlForProp camel JSON_parse now prop opts)
  = chooseDefault JSON_parse prop (argsOption camel prop opts)
      (snd (chooseControl now prop (argTypesOptions camel prop opts))).
Proof. rewrite getControlForProp_unfold. reflexivity. Qed.

(** The control carries the default it was generated with. *)
Lemma control_defaultValue prop opts :
  Js.get (pc_control (getControlForProp camel JSON_parse now prop opts)) "defaultValue"
  = Ok (pc_default (getControlForProp camel JSON_parse now prop opts)).
Proof.
  rewrite getControlForProp_unfold. cbn [pc_control pc_default plain Js.get].
  rewrite JsFacts.lookup_set_eq. reflexivity.
Qed.

(** The inner [control] object is the one the chain chose. *)
Lemma control_inner prop opts :
  Js.get (pc_control (getControlForProp camel JSON_parse now prop opts)) "control"
  = Ok (Js.lookup (Js.spread (fst (chooseControl now prop (argTypesOptions camel prop opts))))
          "control").
Proof.
  rewrite getControlForProp_unfold. cbn [pc_control plain Js.get].
  rewrite JsFacts.lookup_set_ne by discriminate. reflexivity.
Qed.

Lemma string_type_not_primitive t :
  Str.test_words_i ["string"] t = true ->
  Str.test_words_i primitive_types t = false.
Proof.
  unfold Str.test_words_i. cbn [existsb]. rewrite orb_false_r.
  intros ->%String.eqb_eq. reflexivity.
Qed.

Lemma basic_type_cases t :
  Str.test_words_i basic_types t = true ->
  Str.test_words_i ["string"] t = true \/ Str.test_words_i primitive_types t = true.
Proof.
  unfold Str.test_words_i, basic_types, primitive_types. cbn [existsb].
  destruct (String.eqb (Str.toLowerCase t) "string"); [left; reflexivity|].
  intros H. right. exact H.
Qed.

Lemma lower_basic_type t :
  Str.test_words_i primitive_types t = true ->
  In (Str.toLowerCase t) primitive_types.
Proof.
  unfold Str.test_words_i. rewrite existsb_exists.
  intros (w & Hw & ->%String.eqb_eq). exact Hw.
Qed.

(** C9: with no args override, the default text [''] gives the control
    default [Example Label], and a default text that is a quoted word ['w']
    (one or more word characters between single quotes) gives the word
    [w] with the quotes stripped. *)
Theorem getControlForProp_quoted_default prop opts :
  Js.truthy (argsOption camel prop opts) = false ->
  (defaultValue prop = VStr "''" ->
   pc_default (getControlForProp camel JSON_parse now prop opts)
   = VStr "Example Label") /\
  (forall w, w <> EmptyString -> Str.all Str.is_word w = true ->
   defaultValue prop = VStr (Str.quoted w) ->
   pc_default (getControlForProp camel JSON_parse now prop opts) = VStr w).
Proof.
  intros Hargs. rewrite pc_default_eq. unfold chooseDefault. rewrite Hargs.
  split.
  - intros ->. reflexivity.
  - intros w Hne Hall ->.
    assert (Hnq : Str.all (fun c => negb (Str.is_quote c)) w = true).
    { revert Hall. apply StrFacts.all_impl. intros c Hc.
      rewrite (StrFacts.word_not_quote c Hc). reflexivity. }
    rewrite JsFacts.truthy_nonempty_string by (unfold Str.quoted; discriminate).
    unfold parseDefault.
    rewrite (StrFacts.test_quoted_quoted Str.is_word w StrFacts.word_not_quote Hall Hne).
    rewrite (StrFacts.contains_two_quotes_quoted w Hnq Hne).
    cbn [orb try_catch].
    rewrite (StrFacts.remove_quoted Str.is_quote w eq_refl Hnq). reflexivity.
Qed.

(** C2 (as amended): with no args override, a non-empty default text that
    contains neither a quoted word nor two adjacent single quotes, and on
    which [JSON.parse] throws, ends up unchanged as the control default,
    in [default] and in [control.defaultValue]; the exception does not
    leave [getControlForProp].  The handler yields [undefined] for a
    default that is not a string. *)
Theorem getControlForProp_parse_fallback prop opts s :
  Js.truthy (argsOption camel prop opts) = false ->
  defaultValue prop = VStr s ->
  s <> EmptyString ->
  Str.test_quoted Str.is_word s = false ->
  Str.contains "''" s = false ->
  JSON_parse s = None ->
  parseDefault JSON_parse (defaultValue prop) = Throw (SyntaxError "JSON.parse") /\
  pc_default (getControlForProp camel JSON_parse now prop opts) = VStr s /\
  Js.get (pc_control (getControlForProp camel JSON_parse now prop opts)) "defaultValue"
  = Ok (VStr s) /\
  (forall d e, Js.is_string d = false -> defaultFallback d e = VUndefined).
Proof.
  intros Hargs Hd Hne Hq He Hp.
  assert (Hthrow : parseDefault JSON_parse (defaultValue prop)
                   = Throw (SyntaxError "JSON.parse")).
  { rewrite Hd. unfold parseDefault. rewrite Hq, He, Hp. reflexivity. }
  assert (Hdef : pc_default (getControlForProp camel JSON_parse now prop opts) = VStr s).
  { rewrite pc_default_eq. unfold chooseDefault. rewrite Hargs, Hthrow, Hd.
    rewrite JsFacts.truthy_nonempty_string by assumption. reflexivity. }
  repeat split.
  - exact Hthrow.
  - exact Hdef.
  - rewrite control_defaultValue, Hdef. reflexivity.
  - intros d e Hs. unfold defaultFallback. rewrite Hs. reflexivity.
Qed.

(** C3 (as amended): an entry of [argTypes] counts as an override when
    its value is truthy.  When neither the entry under the camel-cased
    attribute name nor the one under the attribute name itself is truthy, a
    prop whose type is [number], [boolean] or [object] in any letter case
    gets a control whose [control.type] is that type in lower case.  When
    the entry under the camel-cased name is truthy, the control is that
    entry (with [defaultValue] set); when it is not and the entry under
    the attribute name is truthy, the control is this one. *)
Theorem getControlForProp_primitive_or_override prop opts :
  let byCamel := Js.lookup (argTypes opts) (camel (attribute prop)) in
  let byName := Js.lookup (argTypes opts) (attribute prop) in
  let r := getControlForProp camel JSON_parse now prop opts in
  (Js.truthy byCamel = false -> Js.truthy byName = false ->
   Str.test_words_i primitive_types (type prop) = true ->
   controlType (pc_control r) = Ok (VStr (Str.toLowerCase (type prop))) /\
   In (Str.toLowerCase (type prop)) ["number"; "boolean"; "object"]) /\
  (Js.truthy byCamel = true ->
   pc_control r = plain (Js.set (Js.spread byCamel) "defaultValue" (pc_default r)) /\
   (forall k, k <> "defaultValue" ->
    Js.get (pc_control r) k = Ok (Js.lookup (Js.spread byCamel) k))) /\
  (Js.truthy byCamel = false -> Js.truthy byName = true ->
   pc_control r = plain (Js.set (Js.spread byName) "defaultValue" (pc_default r)) /\
   (forall k, k <> "defaultValue" ->
    Js.get (pc_control r) k = Ok (Js.lookup (Js.spread byName) k))).
Proof.
  cbv zeta.
  assert (Hoverride : forall override,
    argTypesOptions camel prop opts = override ->
    Js.truthy override = true ->
    pc_control (getControlForProp camel JSON_parse now prop opts)
    = plain (Js.set (Js.spread override) "defaultValue"
               (pc_default (getControlForProp camel JSON_parse now prop opts))) /\
    (forall k, k <> "defaultValue" ->
     Js.get (pc_control (getControlForProp camel JSON_parse now prop opts)) k
     = Ok (Js.lookup (Js.spread override) k))).
  { intros override <- Hov. split.
    - rewrite getControlForProp_unfold. cbn [pc_control pc_default].
      unfold chooseControl, controlBranch. rewrite Hov. reflexivity.
    - intros k Hk. rewrite getControlForProp_unfold. cbn [pc_control plain Js.get].
      rewrite JsFacts.lookup_set_ne by congruence.
      unfold chooseControl, controlBranch. rewrite Hov. reflexivity. }
  split; [|split].
  - intros Hcamel Hname Hty. split; [|apply lower_basic_type, Hty].
    unfold controlType. rewrite control_inner.
    unfold chooseControl, controlBranch, argTypesOptions, Js.or.
    rewrite Hcamel, Hname, Hty. reflexivity.
  - intros Hcamel. apply Hoverride; [|exact Hcamel].
    unfold argTypesOptions, Js.or. rewrite Hcamel. reflexivity.
  - intros Hcamel Hname. apply Hoverride; [|exact Hname].
    unfold argTypesOptions, Js.or. rewrite Hcamel. reflexivity.
Qed.

Lemma selectOption_quoted w :
  w <> EmptyString -> Str.all Str.is_word_or_hyphen w = true ->
  selectOption (Str.quoted w) = w.
Proof.
  intros Hne Hall. unfold selectOption.
  rewrite (StrFacts.test_quoted_quoted _ w StrFacts.word_or_hyphen_not_quote Hall Hne).
  rewrite StrFacts.remove_quoted.
  - apply StrFacts.trim_no_space. revert Hall. apply StrFacts.all_impl.
    intros c Hc. rewrite (StrFacts.word_or_hyphen_not_space c Hc). reflexivity.
  - reflexivity.
  - revert Hall. apply StrFacts.all_impl. intros c Hc.
    rewrite (StrFacts.word_or_hyphen_not_quote c Hc),
            (StrFacts.word_or_hyphen_not_pipe c Hc). reflexivity.
Qed.

(** C4 (as amended): without an argTypes override, a prop of type
    [string] whose [complexType.original] is not itself [string],
    [number], [boolean] or [object] gets a [select] control whose options
    are the pieces of [complexType.original] split on [" | "], each piece
    that contains a single-quoted run of word characters or hyphens having
    lost its single quotes (and its [|] characters and surrounding blanks)
    and every other piece being kept as it is.  A piece ['w'] becomes
    [w]. *)
Theorem getControlForProp_select prop opts :
  Js.truthy (argTypesOptions camel prop opts) = false ->
  Str.test_words_i ["string"] (type prop) = true ->
  Str.test_words_i basic_types (complexType_original prop) = false ->
  Js.get (pc_control (getControlForProp camel JSON_parse now prop opts)) "control"
  = Ok (plain [("type", VStr "select");
               ("options",
                VArr (map VStr (map selectOption
                                  (Str.split " | " (complexType_original prop)))))]) /\
  (forall w, w <> EmptyString -> Str.all Str.is_word_or_hyphen w = true ->
   selectOption (Str.quoted w) = w) /\
  (forall o, Str.test_quoted Str.is_word_or_hyphen o = true ->
   selectOption o
   = Str.trim (Str.remove (fun c => Str.is_quote c || Ascii.eqb c Str.pipe) o)) /\
  (forall o, Str.test_quoted Str.is_word_or_hyphen o = false -> selectOption o = o).
Proof.
  intros Hno Hstr Hcomplex. repeat split.
  - rewrite control_inner. unfold chooseControl, controlBranch.
    rewrite Hno, (string_type_not_primitive _ Hstr), Hstr, Hcomplex. reflexivity.
  - apply selectOption_quoted.
  - intros o Ho. unfold selectOption. rewrite Ho. reflexivity.
  - intros o Ho. unfold selectOption. rewrite Ho. reflexivity.
Qed.

(** C10: for a prop whose type is [string], [number], [boolean] or
    [object] in any letter case, the chain never takes its date arm and
    leaves [defaultVal] the empty string; and a prop of type [string]
    without an argTypes override gets the [text] or the [select] control,
    whatever its attribute name. *)
Theorem date_branch_unreachable prop opts :
  Str.test_words_i basic_types (type prop) = true ->
  controlBranch prop (argTypesOptions camel prop opts) <> DateAttribute /\
  snd (chooseControl now prop (argTypesOptions camel prop opts)) = VStr "" /\
  (Str.test_words_i ["string"] (type prop) = true ->
   Js.truthy (argTypesOptions camel prop opts) = false ->
   let c := pc_control (getControlForProp camel JSON_parse now prop opts) in
   controlType c = Ok (VStr "text") \/ controlType c = Ok (VStr "select")).
Proof.
  intros Hty.
  assert (Hbranch : controlBranch prop (argTypesOptions camel prop opts) <> DateAttribute).
  { unfold controlBranch.
    destruct (Js.truthy (argTypesOptions camel prop opts)); [discriminate|].
    destruct (basic_type_cases _ Hty) as [Hs | Hp].
    - rewrite (string_type_not_primitive _ Hs), Hs.
      destruct (negb _); discriminate.
    - rewrite Hp. discriminate. }
  repeat split.
  - exact Hbranch.
  - unfold chooseControl.
    destruct (controlBranch prop (argTypesOptions camel prop opts));
      try reflexivity; congruence.
  - intros Hs Hno c. subst c. unfold controlType. rewrite control_inner.
    unfold chooseControl, controlBranch.
    rewrite Hno, (string_type_not_primitive _ Hs), Hs.
    destruct (negb _); [right | left]; reflexivity.
Qed.

End ControlFacts.

(** ** Controls on the sample props *)

Lemma getControlForProp_quoted_default_witness :
  pc_default (getControlForProp Sample.camel Sample.JSON_parse Sample.now
                Sample.label Sample.noOptions) = VStr "Example Label" /\
  pc_default (getControlForProp Sample.camel Sample.JSON_parse Sample.now
                Sample.color Sample.noOptions) = VStr "primary".
Proof.
  split.
  - apply (proj1 (getControlForProp_quoted_default Sample.camel Sample.JSON_parse
                    Sample.now Sample.label Sample.noOptions eq_refl)).
    reflexivity.
  - apply (proj2 (getControlForProp_quoted_default Sample.camel Sample.JSON_parse
                    Sample.now Sample.color Sample.noOptions eq_refl) "primary").
    + discriminate.
    + reflexivity.
    + reflexivity.
Defined.

(** C2 as stated fails twice.  The default text [['a', 'b']] is neither a
    quoted word nor [''] and is not JSON, yet the control default is
    [[a, b]], not the text itself: the test for a quoted word looks for one
    anywhere in the text.  And the empty default text, which is not JSON
    either, is never parsed: the prop keeps what the chain left, here a
    date. *)
Lemma getControlForProp_parse_fallback_counterexample :
  let get := getControlForProp Sample.camel Sample.JSON_parse Sample.now in
  (Js.truthy (argsOption Sample.camel Sample.items Sample.noOptions) = false /\
   defaultValue Sample.items = VStr "['a', 'b']" /\
   (forall w, "['a', 'b']" <> Str.quoted w) /\
   "['a', 'b']" <> "''" /\
   Sample.JSON_parse "['a', 'b']" = None /\
   pc_default (get Sample.items Sample.noOptions) = VStr "[a, b]" /\
   pc_default (get Sample.items Sample.noOptions) <> VStr "['a', 'b']") /\
  (Js.truthy (argsOption Sample.camel Sample.startDate Sample.noOptions) = false /\
   defaultValue Sample.startDate = VStr "" /\
   (forall w, "" <> Str.quoted w) /\
   Sample.JSON_parse "" = None /\
   pc_default (get Sample.startDate Sample.noOptions) = VDate Sample.now /\
   pc_default (get Sample.startDate Sample.noOptions) <> VStr "").
Proof.
  cbv zeta. repeat split; solve [reflexivity | discriminate].
Qed.

Lemma getControlForProp_parse_fallback_witness :
  pc_default (getControlForProp Sample.camel Sample.JSON_parse Sample.now
                Sample.count Sample.noOptions) = VStr "1 + 1".
Proof.
  apply (getControlForProp_parse_fallback Sample.camel Sample.JSON_parse Sample.now
           Sample.count Sample.noOptions "1 + 1");
    solve [reflexivity | discriminate].
Defined.

Lemma getControlForProp_primitive_or_override_witness :
  controlType (pc_control (getControlForProp Sample.camelCase Sample.JSON_parse
                             Sample.now Sample.maxLength Sample.noOptions))
  = Ok (VStr "number") /\
  Js.get (pc_control (getControlForProp Sample.camelCase Sample.JSON_parse Sample.now
                        Sample.maxLength Sample.byBoth)) "control"
  = Ok (plain [("type", VStr "color")]) /\
  Js.get (pc_control (getControlForProp Sample.camelCase Sample.JSON_parse Sample.now
                        Sample.maxLength Sample.byAttribute)) "control"
  = Ok (plain [("type", VStr "range")]).
Proof.
  split; [|split].
  - apply (proj1 (getControlForProp_primitive_or_override Sample.camelCase
                    Sample.JSON_parse Sample.now Sample.maxLength Sample.noOptions));
      reflexivity.
  - apply (proj1 (proj2 (getControlForProp_primitive_or_override Sample.camelCase
                           Sample.JSON_parse Sample.now Sample.maxLength
                           Sample.byBoth)) eq_refl).
    discriminate.
  - apply (proj2 (proj2 (getControlForProp_primitive_or_override Sample.camelCase
                           Sample.JSON_parse Sample.now Sample.maxLength
                           Sample.byAttribute)) eq_refl eq_refl).
    discriminate.
Defined.

(** C3 as stated fails on an override that exists and is falsy: with
    [argTypes: { maxLength: null }] the entry is there under the
    camel-cased name, and the control is not that entry but the one made
    from the type of the prop. *)
Lemma getControlForProp_primitive_or_override_counterexample :
  In (Sample.camelCase (attribute Sample.maxLength))
    (Js.keys (argTypes Sample.nulled)) /\
  Js.lookup (argTypes Sample.nulled) (Sample.camelCase (attribute Sample.maxLength))
  = VNull /\
  pc_control (getControlForProp Sample.camelCase Sample.JSON_parse Sample.now
                Sample.maxLength Sample.nulled)
  = plain [("control", plain [("type", VStr "number")]); ("defaultValue", VStr "")] /\
  pc_control (getControlForProp Sample.camelCase Sample.JSON_parse Sample.now
                Sample.maxLength Sample.nulled)
  <> plain (Js.set (Js.spread VNull) "defaultValue" (VStr "")).
Proof.
  split; [left; reflexivity|]. split; [reflexivity|]. split; [reflexivity|].
  discriminate.
Qed.

(** C4 as stated fails on a quoted alternative of two words: the piece
    ['Hello World'] of the union is kept with its quotes, while ['Bye']
    loses them. *)
Lemma getControlForProp_select_counterexample :
  Js.truthy (argTypesOptions Sample.camel Sample.greeting Sample.noOptions) = false /\
  Str.test_words_i ["string"] (type Sample.greeting) = true /\
  Str.test_words_i basic_types (complexType_original Sample.greeting) = false /\
  Str.split " | " (complexType_original Sample.greeting)
  = [Str.quoted "Hello World"; Str.quoted "Bye"] /\
  Js.get (pc_control (getControlForProp Sample.camel Sample.JSON_parse Sample.now
                        Sample.greeting Sample.noOptions)) "control"
  = Ok (plain [("type", VStr "select");
               ("options", VArr [VStr "'Hello World'"; VStr "Bye"])]).
Proof. repeat split; reflexivity. Qed.

Lemma getControlForProp_select_witness :
  Js.get (pc_control (getControlForProp Sample.camel Sample.JSON_parse Sample.now
                        Sample.color Sample.noOptions)) "control"
  = Ok (plain [("type", VStr "select");
               ("options", VArr [VStr "primary"; VStr "secondary"])]).
Proof.
  apply (proj1 (getControlForProp_select Sample.camel Sample.JSON_parse Sample.now
                  Sample.color Sample.noOptions eq_refl eq_refl eq_refl)).
Defined.

Lemma date_branch_unreachable_witness :
  Str.contains "date" (attribute Sample.updated) = true /\
  controlBranch Sample.updated
    (argTypesOptions Sample.camel Sample.updated Sample.noOptions) = Fallthrough /\
  controlType (pc_control (getControlForProp Sample.camel Sample.JSON_parse Sample.now
                             Sample.updated Sample.noOptions))
  = Ok (VStr "text").
Proof.
  split; [reflexivity|]. split; [reflexivity|].
  destruct (proj2 (proj2 (date_branch_unreachable Sample.camel Sample.JSON_parse
                            Sample.now Sample.updated Sample.noOptions eq_refl))
              eq_refl eq_refl) as [H | H].
  - exact H.
  - discriminate H.
Defined.

(** ** Controls of a whole component *)

Section ComponentControls.

Variable camel : string -> string.
Variable JSON_parse : string -> option jsval.
Variable now : nat -> Z.

Lemma hasAttribute_iff property :
  hasAttribute property <-> attr property <> None \/ attribute property <> None.
Proof.
  unfold hasAttribute, normalize.
  destruct (attr property) as [a|]; simpl; intuition congruence.
Qed.

Lemma withAttribute_None property :
  withAttribute property = None <-> attribute property = None.
Proof.
  unfold withAttribute. destruct (attribute property); intuition congruence.
Qed.

Lemma addControl_keys t opts controls key property k :
  let controls' := addControl camel JSON_parse t opts controls (key, property) in
  (In k (Js.keys (args controls')) <->
   In k (Js.keys (args controls)) \/ (k = key /\ hasAttribute property)) /\
  (In k (Js.keys (argTypes controls')) <->
   In k (Js.keys (argTypes controls)) \/ (k = key /\ hasAttribute property)).
Proof.
  unfold addControl, hasAttribute. cbv zeta.
  destruct (withAttribute (normalize property)) as [prop|] eqn:E.
  - assert (attribute (normalize property) <> None) as Hsome.
    { intros Hn. apply withAttribute_None in Hn. congruence. }
    cbn [args argTypes]. rewrite !JsFacts.keys_set. tauto.
  - apply withAttribute_None in E. tauto.
Qed.

Lemma fold_addControl_keys opts entries i controls k :
  let r := addControls camel JSON_parse now opts i entries controls in
  (In k (Js.keys (args r)) <->
   In k (Js.keys (args controls)) \/
   exists property, In (k, property) entries /\ hasAttribute property) /\
  (In k (Js.keys (argTypes r)) <->
   In k (Js.keys (argTypes controls)) \/
   exists property, In (k, property) entries /\ hasAttribute property).
Proof.
  cbv zeta. revert i controls.
  induction entries as [|[key property] entries IH]; intros i controls.
  - simpl. split; (split; [auto | intros [H | (p & [] & _)]; exact H]).
  - cbn [addControls].
    destruct (IH (S i)
                (addControl camel JSON_parse (now i) opts controls (key, property)))
      as [IHa IHt].
    destruct (addControl_keys (now i) opts controls key property k) as [Ha Ht].
    cbv zeta in Ha, Ht. rewrite IHa, IHt, Ha, Ht. clear.
    split; split.
    + intros [[H | [-> H]] | (p & Hin & H)]; auto.
      * right. exists property. split; [left; reflexivity | exact H].
      * right. exists p. split; [right; exact Hin | exact H].
    + intros [H | (p & [Heq | Hin] & H)]; auto.
      * inversion Heq; subst. auto.
      * right. exists p. auto.
    + intros [[H | [-> H]] | (p & Hin & H)]; auto.
      * right. exists property. split; [left; reflexivity | exact H].
      * right. exists p. split; [right; exact Hin | exact H].
    + intros [H | (p & [Heq | Hin] & H)]; auto.
      * inversion Heq; subst. auto.
      * right. exists p. auto.
Qed.

(** C5: [getPropsWithControlValues] gives [args] and [argTypes] an entry
    under exactly the keys of [Component.properties] whose descriptor,
    once a legacy ['attr'] has been copied into ['attribute'], has the
    ['attribute'] own property, that is, the descriptors that have one of
    the two keys; the others are skipped.  A component without
    [properties] gets empty [args] and [argTypes]. *)
Theorem getPropsWithControlValues_keys C opts :
  let controls := snd (getPropsWithControlValues camel JSON_parse now C opts) in
  let entries := from_option id [] (properties C) in
  (forall k,
     In k (Js.keys (args controls)) <->
     exists property, In (k, property) entries /\ hasAttribute property) /\
  (forall k,
     In k (Js.keys (argTypes controls)) <->
     exists property, In (k, property) entries /\ hasAttribute property) /\
  (forall property,
     hasAttribute property <-> attr property <> None \/ attribute property <> None) /\
  (properties C = None -> args controls = [] /\ argTypes controls = []).
Proof.
  cbv zeta. unfold getPropsWithControlValues. cbn [snd].
  repeat split.
  - intros H.
    apply (proj1 (fold_addControl_keys opts _ 0 {| args := []; argTypes := [] |} k)) in H.
    destruct H as [[] | H]. exact H.
  - intros H.
    apply (proj1 (fold_addControl_keys opts _ 0 {| args := []; argTypes := [] |} k)).
    right. exact H.
  - intros H.
    apply (proj2 (fold_addControl_keys opts _ 0 {| args := []; argTypes := [] |} k)) in H.
    destruct H as [[] | H]. exact H.
  - intros H.
    apply (proj2 (fold_addControl_keys opts _ 0 {| args := []; argTypes := [] |} k)).
    right. exact H.
  - apply hasAttribute_iff.
  - apply hasAttribute_iff.
  - rewrite H. reflexivity.
  - rewrite H. reflexivity.
Qed.

(** The value stored under a key is the control of the last descriptor
    processed under it; with the distinct keys of an object that is the
    descriptor of the key. *)
Lemma addControl_value t opts controls key property prop :
  withAttribute (normalize property) = Some prop ->
  let controls' := addControl camel JSON_parse t opts controls (key, property) in
  Js.lookup (args controls') key
  = pc_default (getControlForProp camel JSON_parse t prop opts) /\
  Js.lookup (argTypes controls') key
  = pc_control (getControlForProp camel JSON_parse t prop opts).
Proof.
  intros E. unfold addControl. cbv zeta. rewrite E. cbn [args argTypes].
  rewrite !JsFacts.lookup_set_eq. split; reflexivity.
Qed.

End ComponentControls.

Lemma getPropsWithControlValues_keys_witness :
  let get := getPropsWithControlValues Sample.camel Sample.JSON_parse Sample.clock in
  (In "legacy" (Js.keys (args (snd (get Sample.MyButtonComponent Sample.noOptions)))) /\
   ~ In "internal" (Js.keys (args (snd (get Sample.MyButtonComponent Sample.noOptions))))) /\
  args (snd (get Sample.Bare Sample.noOptions)) = [] /\
  argTypes (snd (get Sample.Bare Sample.noOptions)) = [].
Proof.
  cbv zeta.
  destruct (getPropsWithControlValues_keys Sample.camel Sample.JSON_parse Sample.clock
              Sample.MyButtonComponent Sample.noOptions) as (Hargs & _ & Hhas & _).
  destruct (getPropsWithControlValues_keys Sample.camel Sample.JSON_parse Sample.clock
              Sample.Bare Sample.noOptions) as (_ & _ & _ & Hnone).
  split; [split|].
  - apply Hargs. exists Sample.legacy. split.
    + simpl. tauto.
    + apply Hhas. left. discriminate.
  - intros (p & Hin & Hp)%Hargs. apply Hhas in Hp.
    simpl in Hin.
    repeat (destruct Hin as [Hin | Hin]; [inversion Hin; subst; clear Hin|]);
      try discriminate; try contradiction.
    destruct Hp as [Hp | Hp]; apply Hp; reflexivity.
  - apply Hnone. reflexivity.
Defined.

Example MyButton_controls :
  Js.keys (args (snd (getPropsWithControlValues Sample.camel Sample.JSON_parse Sample.clock
                        Sample.MyButtonComponent Sample.noOptions)))
  = ["color"; "disabled"; "elevation"; "shape"; "size"; "legacy"].
Proof. reflexivity. Qed.

(** ** Finding the component *)

Section Exports.

Lemma quacks_total v : Js.is_nullish v = false -> exists b, quacks v = Ok b.
Proof.
  unfold quacks. destruct v; try discriminate; intros _; cbn [Js.get bind Js.truthy];
    eauto.
  destruct (Js.truthy (Js.lookup props "prototype")); eauto.
  destruct (Js.truthy (Js.lookup props "is")); eauto.
Qed.

Lemma quacks_nullish v :
  Js.is_nullish v = true -> exists e, quacks v = Throw e.
Proof. destruct v; try discriminate; intros _; simpl; eauto. Qed.

(** The shape check passes on objects whose [prototype], [is] and
    [encapsulation] are all truthy, and on nothing else. *)
Lemma quacks_true_iff v :
  quacks v = Ok true <->
  exists callable props,
    v = VObj callable props /\
    Js.truthy (Js.lookup props "prototype") = true /\
    Js.truthy (Js.lookup props "is") = true /\
    Js.truthy (Js.lookup props "encapsulation") = true.
Proof.
  split.
  - unfold quacks. destruct v; cbn [Js.get bind Js.truthy]; try discriminate.
    destruct (Js.truthy (Js.lookup props "prototype")) eqn:Ep; [|discriminate].
    destruct (Js.truthy (Js.lookup props "is")) eqn:Ei; [|discriminate].
    intros [= He]. eauto 8.
  - intros (c & props & -> & Hp & Hi & He). unfold quacks.
    cbn [Js.get bind]. rewrite Hp, Hi, He. reflexivity.
Qed.

Lemma quacks_false v :
  Js.is_nullish v = false -> quacks v <> Ok true -> quacks v = Ok false.
Proof.
  intros [[] Hb]%quacks_total Hn; congruence.
Qed.

Lemma lookup_In m k v : In (k, v) m -> exists v', In (k, v') m /\ Js.lookup m k = v'.
Proof.
  induction m as [|[k0 v0] m IH]; [intros []|].
  intros Hin. cbn [Js.lookup]. destruct (String.eqb_spec k0 k) as [->|Hne].
  - exists v0. split; [left; reflexivity | reflexivity].
  - destruct Hin as [[= <- <-] | Hin]; [congruence|].
    destruct (IH Hin) as (v' & Hin' & Hv'). exists v'. split; [right|]; assumption.
Qed.

Lemma lookup_key_In m k : In k (Js.keys m) -> In (k, Js.lookup m k) m.
Proof.
  unfold Js.keys. rewrite in_map_iff. intros ([k' v] & <- & Hin).
  destruct (lookup_In m k' v Hin) as (v' & Hin' & <-). exact Hin'.
Qed.

Lemma lookup_absent m k : Js.has_own m k = false -> Js.lookup m k = VUndefined.
Proof.
  induction m as [|[k0 v0] m IH]; [reflexivity|].
  cbn [Js.has_own Js.lookup]. destruct (String.eqb k0 k); [discriminate | exact IH].
Qed.

Lemma lookup_app_fresh pre k v post :
  ~ In k (Js.keys pre) -> Js.lookup (pre ++ (k, v) :: post) k = v.
Proof.
  induction pre as [|[k0 v0] pre IH]; intros Hnot.
  - simpl. rewrite String.eqb_refl. reflexivity.
  - simpl in *. destruct (String.eqb_spec k0 k) as [->|Hne]; [tauto|].
    apply IH. tauto.
Qed.

(** [find] passes over the keys whose export fails the check without
    raising. *)
Lemma findExportKey_skip m ks rest :
  Forall (fun k => quacks (Js.lookup m k) = Ok false) ks ->
  findExportKey m (ks ++ rest) = findExportKey m rest.
Proof.
  induction 1 as [|k ks Hk _ IH]; [reflexivity|].
  cbn [app findExportKey]. rewrite Hk. exact IH.
Qed.

Lemma checked_keys m (entries : obj) :
  (forall e, In e entries -> In e m) ->
  Forall (fun x => Js.is_nullish (snd x) = false) m ->
  Forall (fun x => quacks (snd x) <> Ok true) m ->
  Forall (fun k => quacks (Js.lookup m k) = Ok false) (Js.keys entries).
Proof.
  intros Hsub Hnn Hnq. rewrite List.Forall_forall in *.
  intros k Hk. unfold Js.keys in Hk. apply in_map_iff in Hk as ([k' v] & Hk & Hin).
  simpl in Hk. subst k.
  destruct (lookup_In m k' v (Hsub _ Hin)) as (v' & Hin' & ->).
  apply quacks_false; [apply (Hnn _ Hin') | apply (Hnq _ Hin')].
Qed.

Lemma lookup_app_l pre rest k :
  In k (Js.keys pre) -> Js.lookup (pre ++ rest) k = Js.lookup pre k.
Proof.
  induction pre as [|[k0 v0] pre IH]; [intros []|].
  cbn [Js.keys map fst app Js.lookup]. intros [-> | Hin].
  - rewrite String.eqb_refl. reflexivity.
  - destruct (String.eqb k0 k); [reflexivity | apply IH, Hin].
Qed.

Lemma keys_app (a b : obj) : Js.keys (a ++ b) = Js.keys a ++ Js.keys b.
Proof. apply List.map_app. Qed.

Lemma getComponentFromExports_none _module :
  Forall nonNullish _module -> Forall failsCheck _module ->
  getComponentFromExports _module = Ok (Js.lookup _module "undefined").
Proof.
  intros Hnn Hnq. unfold getComponentFromExports.
  pose proof (checked_keys _module _module (fun e H => H) Hnn Hnq) as Hks.
  rewrite <- (app_nil_r (Js.keys _module)).
  rewrite (findExportKey_skip _module (Js.keys _module) [] Hks). reflexivity.
Qed.

(** C7 (as amended): [getComponentFromExports] returns the first export,
    in key order, whose [prototype], [is] and [encapsulation] are all
    truthy, provided no export before it is [undefined] or [null]; and it
    returns [undefined] when every export is an object or a primitive other
    than those two, none passes the check, and the module has no export
    named ["undefined"].  The keys of a module object are distinct. *)
Theorem getComponentFromExports_first_match (_module : obj) :
  List.NoDup (Js.keys _module) ->
  (forall pre k e post,
     _module = pre ++ (k, e) :: post ->
     Forall nonNullish pre -> Forall failsCheck pre ->
     quacks e = Ok true ->
     getComponentFromExports _module = Ok e) /\
  (Forall nonNullish _module -> Forall failsCheck _module ->
   Js.has_own _module "undefined" = false ->
   getComponentFromExports _module = Ok VUndefined) /\
  (forall e,
     quacks e = Ok true <->
     exists callable props,
       e = VObj callable props /\
       Js.truthy (Js.lookup props "prototype") = true /\
       Js.truthy (Js.lookup props "is") = true /\
       Js.truthy (Js.lookup props "encapsulation") = true).
Proof.
  intros Hnd. split; [|split].
  - intros pre k e post -> Hnn Hnq He.
    assert (Hfresh : ~ In k (Js.keys pre)).
    { rewrite keys_app in Hnd. cbn [Js.keys map fst] in Hnd.
      apply NoDup_remove_2 in Hnd. intros Hin. apply Hnd, in_or_app. left. exact Hin. }
    assert (Hpre : Forall (fun k' => quacks (Js.lookup (pre ++ (k, e) :: post) k') = Ok false)
                     (Js.keys pre)).
    { pose proof (checked_keys pre pre (fun x H => H) Hnn Hnq) as Hks.
      rewrite List.Forall_forall in *. intros k' Hk'.
      rewrite lookup_app_l by exact Hk'. apply Hks, Hk'. }
    unfold getComponentFromExports. rewrite keys_app.
    rewrite (findExportKey_skip _ _ _ Hpre).
    cbn [Js.keys map fst findExportKey].
    rewrite (lookup_app_fresh pre k e post Hfresh), He.
    cbn [bind from_option id]. rewrite (lookup_app_fresh pre k e post Hfresh).
    reflexivity.
  - intros Hnn Hnq Hu. rewrite getComponentFromExports_none by assumption.
    rewrite lookup_absent by exact Hu. reflexivity.
  - apply quacks_true_iff.
Qed.

End Exports.

(** C7 as stated fails on a module with a [null] export ahead of the
    component: reading [prototype] from [null] raises, and the component
    is not returned.  It also fails on an export that has the three
    properties with one of them falsy, here an empty [is]: the export is
    passed over and the result is [undefined].  And with an export named
    ["undefined"] that export is the result when no export passes. *)
Lemma getComponentFromExports_first_match_counterexample :
  (quacks Sample.MyButton = Ok true /\
   getComponentFromExports [("helper", VNull); ("MyButton", Sample.MyButton)]
   = Throw (TypeError "Cannot read properties of null")) /\
  (Js.has_own (Js.spread Sample.Blank) "prototype" = true /\
   Js.has_own (Js.spread Sample.Blank) "is" = true /\
   Js.has_own (Js.spread Sample.Blank) "encapsulation" = true /\
   getComponentFromExports [("Blank", Sample.Blank)] = Ok VUndefined) /\
  (quacks Sample.Unscoped = Ok false /\
   getComponentFromExports [("undefined", Sample.Unscoped)] = Ok Sample.Unscoped).
Proof. repeat split; reflexivity. Qed.

Lemma getComponentFromExports_first_match_witness :
  getComponentFromExports
    [("version", Sample.version); ("Unscoped", Sample.Unscoped);
     ("MyButton", Sample.MyButton)]
  = Ok Sample.MyButton /\
  getComponentFromExports [("version", Sample.version); ("Unscoped", Sample.Unscoped)]
  = Ok VUndefined.
Proof.
  split.
  - apply (proj1 (getComponentFromExports_first_match
                    [("version", Sample.version); ("Unscoped", Sample.Unscoped);
                     ("MyButton", Sample.MyButton)]
                    ltac:(repeat constructor; simpl; intuition discriminate))
             [("version", Sample.version); ("Unscoped", Sample.Unscoped)]
             "MyButton" Sample.MyButton []).
    + reflexivity.
    + repeat constructor.
    + repeat constructor; discriminate.
    + reflexivity.
  - apply (proj1 (proj2 (getComponentFromExports_first_match
                    [("version", Sample.version); ("Unscoped", Sample.Unscoped)]
                    ltac:(repeat constructor; simpl; intuition discriminate)))).
    + repeat constructor.
    + repeat constructor; discriminate.
    + reflexivity.
Defined.

(** ** Building the configs *)

Example build_with_story :
  buildGeneratorConfigs Sample.path_basename Sample.path_dirname Sample.ToString Sample.callReplace
    {| ctx_keys := [Sample.route; "./components/my-unscoped/my-unscoped.js"];
       ctx_load := fun r =>
         if String.eqb r Sample.route then [("MyButton", Sample.MyButton)]
         else [("Unscoped", Sample.Unscoped)] |}
    {| ctx_keys := ["./components/my-button/my-button.stories.tsx"];
       ctx_load := fun _ =>
         [("default", plain [("states", VArr []); ("notes", VStr "a \| b")])] |}
  = Ok {| configs :=
            [("MyButton",
              plain [("Component", Sample.MyButton); ("states", VArr []);
                     ("args", VUndefined); ("argTypes", VUndefined);
                     ("notes", VStr "a ` ` b")])];
          warnings :=
            ["Couldn't load component ./components/my-unscoped/my-unscoped.js"] |}.
Proof. reflexivity. Qed.

Section ConfigFacts.

Variable path_basename : string -> string.
Variable path_dirname : string -> string.
Variable ToString : jsval -> string.
Variable callReplace : jsval -> result jsval.

Lemma reduce_app {A B : Type} (f : B -> A -> result B) l1 l2 b :
  reduce f (l1 ++ l2) b = bind (reduce f l1 b) (reduce f l2).
Proof.
  revert b. induction l1 as [|a l1 IH]; intros b; [reflexivity|].
  cbn [app reduce]. destruct (f b a); [apply IH | reflexivity].
Qed.

Lemma addConfig_no_component componentsCtx storiesCtx b compRoute c :
  getComponentFromExports (ctx_load componentsCtx compRoute) = Ok c ->
  Js.truthy c = false ->
  addConfig path_basename path_dirname ToString callReplace componentsCtx storiesCtx b compRoute
  = Ok (warned b compRoute).
Proof.
  intros Hc Hf. unfold addConfig. cbv zeta. rewrite Hc. cbn [bind].
  rewrite Hf. reflexivity.
Qed.

(** X18: for a component route whose module has no export that is
    [undefined] or [null], no export that passes the shape check and no
    export named ["undefined"], [getComponentFromExports] returns
    [undefined] and [buildGeneratorConfigs] writes one warning for the
    route and goes on with the accumulator object as it was: no entry is
    added and nothing is raised for the route. *)
Theorem buildGeneratorConfigs_missing_component
  componentsCtx storiesCtx before compRoute after :
  ctx_keys componentsCtx = before ++ compRoute :: after ->
  Forall nonNullish (ctx_load componentsCtx compRoute) ->
  Forall failsCheck (ctx_load componentsCtx compRoute) ->
  Js.has_own (ctx_load componentsCtx compRoute) "undefined" = false ->
  let step := addConfig path_basename path_dirname ToString callReplace componentsCtx storiesCtx in
  getComponentFromExports (ctx_load componentsCtx compRoute) = Ok VUndefined /\
  (forall b, step b compRoute = Ok (warned b compRoute)) /\
  buildGeneratorConfigs path_basename path_dirname ToString callReplace componentsCtx storiesCtx
  = bind (reduce step before {| configs := []; warnings := [] |})
      (fun b => reduce step after (warned b compRoute)).
Proof.
  intros Hkeys Hnn Hnq Hu step.
  assert (Hc : getComponentFromExports (ctx_load componentsCtx compRoute) = Ok VUndefined).
  { rewrite getComponentFromExports_none by assumption.
    rewrite lookup_absent by exact Hu. reflexivity. }
  assert (Hstep : forall b, step b compRoute = Ok (warned b compRoute)).
  { intros b. apply (addConfig_no_component _ _ _ _ VUndefined Hc eq_refl). }
  repeat split.
  - exact Hc.
  - exact Hstep.
  - unfold buildGeneratorConfigs. fold step. rewrite Hkeys, reduce_app.
    destruct (reduce step before _) as [b|e]; [|reflexivity].
    cbn [bind reduce]. rewrite Hstep. reflexivity.
Qed.

End ConfigFacts.

Lemma buildGeneratorConfigs_missing_component_witness :
  buildGeneratorConfigs Sample.path_basename Sample.path_dirname Sample.ToString Sample.callReplace
    (Sample.components [("version", Sample.version); ("Unscoped", Sample.Unscoped)])
    Sample.noStories
  = Ok {| configs := [];
          warnings := ["Couldn't load component ./components/my-button/my-button.js"] |}.
Proof.
  apply (proj2 (proj2 (buildGeneratorConfigs_missing_component
           Sample.path_basename Sample.path_dirname Sample.ToString Sample.callReplace
           (Sample.components [("version", Sample.version); ("Unscoped", Sample.Unscoped)])
           Sample.noStories [] Sample.route [] eq_refl
           ltac:(repeat constructor)
           ltac:(repeat constructor; discriminate)
           eq_refl))).
Defined.

(** ** Stories *)

Section StoryFacts.

Variable camel : string -> string.
Variable kebab : string -> string.
Variable JSON_parse : string -> option jsval.
Variable now : nat -> Z.
Variable ToString : jsval -> string.
Variable browser : Dom.Rules.

Lemma stateAt_Some_dom (h : heap) l s : stateAt h l = Some s -> l ∈ dom h.
Proof.
  unfold stateAt. destruct (h !! l) eqn:E; [|discriminate].
  intros _. apply elem_of_dom. eauto.
Qed.

Lemma mapM_stateAt_dom (h : heap) items given :
  mapM (stateAt h) items = Some given -> Forall (fun l => l ∈ dom h) items.
Proof.
  intros H. apply mapM_Some in H.
  induction H as [|l s items given Hl _ IH]; constructor; [|exact IH].
  eapply stateAt_Some_dom, Hl.
Qed.

Lemma mapM_stateAt_agree (h h' : heap) items :
  Forall (fun l => h' !! l = h !! l) items ->
  mapM (stateAt h') items = mapM (stateAt h) items.
Proof.
  intros H. apply Forall_mapM_ext. eapply Forall_impl; [exact H|].
  intros l Hl. unfold stateAt. cbn beta in Hl. rewrite Hl. reflexivity.
Qed.

Lemma render_inv h0 C cl items first h given args :
  story_inv h0 C cl items first h ->
  mapM (stateAt h0) items = Some given ->
  let rendered :=
    renderStates kebab ToString browser (cl_tag cl)
      (defaultStateWith C (Some args) (plain (cl_argTypes cl)) :: given) in
  exists h',
    render kebab ToString browser cl args h
    = Some (h', renderOutcome (cl_mainEl cl) (snd rendered)) /\
    story_inv h0 C cl items first h' /\
    h' !! cl_mainEl cl = Some (CMain (fst rendered)).
Proof.
  intros [Hm Hs Hf Hms Hmf Hsf Harr (props & aT & Hdef) Hframe] Hgiven.
  set (s0' := defaultStateWith C (Some args) (plain (cl_argTypes cl))).
  set (h1 := <[first := CState s0']> h).
  assert (Hitems : mapM (stateAt h1) items = Some given).
  { rewrite <- Hgiven. apply mapM_stateAt_agree.
    eapply Forall_impl; [apply (mapM_stateAt_dom _ _ _ Hgiven)|].
    intros l Hl. cbn beta in Hl. unfold h1.
    rewrite lookup_insert_ne by (intros <-; contradiction).
    apply Hframe, Hl. }
  assert (Hall : mapM (stateAt h1) (first :: items) = Some (s0' :: given)).
  { apply mapM_Some_2. constructor.
    - unfold stateAt, h1. rewrite lookup_insert_eq. reflexivity.
    - apply mapM_Some_1, Hitems. }
  cbv zeta.
  destruct (renderStates kebab ToString browser (cl_tag cl) (s0' :: given))
    as [containers outcome] eqn:Erendered.
  exists (<[cl_mainEl cl := CMain containers]> h1).
  split; [|split].
  - unfold render. rewrite Harr. unfold stateAt at 1. rewrite Hdef.
    change (mkState _ _ _ (Some args) _ (plain (cl_argTypes cl)))
      with s0'.
    fold h1. rewrite Hall, Erendered. reflexivity.
  - constructor; try assumption.
    + rewrite lookup_insert_ne by assumption. unfold h1.
      rewrite lookup_insert_ne by congruence. exact Harr.
    + exists (Some args), (plain (cl_argTypes cl)).
      rewrite lookup_insert_ne by assumption. unfold h1.
      rewrite lookup_insert_eq. reflexivity.
    + intros l Hl.
      rewrite lookup_insert_ne by (intros <-; contradiction). unfold h1.
      rewrite lookup_insert_ne by (intros <-; contradiction).
      apply Hframe, Hl.
  - rewrite lookup_insert_eq. reflexivity.
Qed.

(** When every state renders, the loop appends their containers, in
    order, and ends well. *)
Lemma renderStates_all tag states containers :
  Forall2 (fun s container => renderState kebab ToString browser tag s = Ok container)
    states containers ->
  renderStates kebab ToString browser tag states = (containers, Ok tt).
Proof.
  induction 1 as [|s container states containers Hs _ IH]; [reflexivity|].
  cbn [renderStates]. rewrite Hs, IH. reflexivity.
Qed.

Lemma renders_inv h0 C cl items first given argss :
  mapM (stateAt h0) items = Some given ->
  forall h, story_inv h0 C cl items first h ->
  exists h',
    renders kebab ToString browser cl argss h = Some h' /\
    story_inv h0 C cl items first h'.
Proof.
  intros Hgiven. induction argss as [|args argss IH]; intros h Hinv.
  - exists h. split; [reflexivity | exact Hinv].
  - destruct (render_inv _ _ _ _ _ _ _ args Hinv Hgiven) as (h1 & Hr & Hinv1 & _).
    cbv zeta in Hr. cbn [renders]. rewrite Hr. apply IH, Hinv1.
Qed.

Lemma cloneStates_alloc (h : heap) c states items :
  cloneStates h states = Some items ->
  cloneStates (snd (alloc h c)) states = Some items.
Proof.
  unfold cloneStates, alloc. cbn [snd]. destruct states as [a|]; [|auto].
  destruct (h !! a) as [[]|] eqn:E; try discriminate. intros [= <-].
  rewrite lookup_insert_ne.
  - rewrite E. reflexivity.
  - intros Heq. pose proof (is_fresh (dom h)) as Hfresh.
    rewrite Heq in Hfresh. apply Hfresh, elem_of_dom. eauto.
Qed.

Lemma createStencilStory_inv config stories h items :
  cloneStates h (cfg_states config) = Some items ->
  exists h1 story C' first,
    createStencilStory camel JSON_parse now config stories h
    = Some (h1, stories ++ [story], C') /\
    story_name story = name (cfg_Component config) /\
    cl_tag (story_render story) = is_ (cfg_Component config) /\
    cl_argTypes (story_render story) = argTypes (controlsOf camel JSON_parse now config) /\
    story_inv h (cfg_Component config) (story_render story) items first h1.
Proof.
  intros Hclone. unfold createStencilStory, controlsOf.
  pose proof (cloneStates_alloc h (CMain []) _ _ Hclone) as Hclone'.
  unfold alloc in *. cbn [snd] in Hclone'. cbv zeta.
  destruct (getPropsWithControlValues camel JSON_parse now (cfg_Component config) _)
    as [C' controls] eqn:Econtrols.
  cbn [snd]. rewrite Hclone'.
  set (mainEl := fresh (dom h)).
  set (h1 := <[mainEl := CMain []]> h).
  set (states := fresh (dom h1)).
  set (h2 := <[states := CArr items]> h1).
  set (first := fresh (dom h2)).
  assert (Hm : mainEl ∉ dom h) by apply is_fresh.
  assert (Hs : states ∉ dom h1) by apply is_fresh.
  assert (Hf : first ∉ dom h2) by apply is_fresh.
  unfold h2 in Hf. rewrite dom_insert_L in Hf.
  unfold h1 in Hs, Hf. rewrite dom_insert_L in Hs, Hf.
  eexists _, _, _, first. split; [reflexivity|].
  cbn [story_name story_render cl_tag cl_argTypes].
  repeat split; cbn [cl_mainEl cl_states].
  - exact Hm.
  - set_solver.
  - set_solver.
  - set_solver.
  - set_solver.
  - set_solver.
  - rewrite lookup_insert_eq. reflexivity.
  - exists (Some []), VUndefined.
    rewrite lookup_insert_ne by set_solver.
    rewrite lookup_insert_eq. reflexivity.
  - intros l Hl.
    rewrite lookup_insert_ne by set_solver.
    rewrite lookup_insert_ne by set_solver.
    unfold h2. rewrite lookup_insert_ne by set_solver.
    unfold h1. rewrite lookup_insert_ne by set_solver.
    reflexivity.
Qed.

(** C6 (as amended): provided every state renders, that is, the DOM
    accepts the tag and attribute names it is given and each template
    keeps its placeholder, the render function of the story made by
    [createStencilStory] fills the main element with one container per
    state, in order: first the default state, titled [Default state (use
    Controls below to edit props):], whose props are the args of this very
    render, then the given states.  This holds for the first render and
    after any renders before it. *)
Theorem render_default_state_first config stories h items given argss args containers :
  cloneStates h (cfg_states config) = Some items ->
  mapM (stateAt h) items = Some given ->
  let tag := is_ (cfg_Component config) in
  let default :=
    {| s_title := VStr default_title;
       s_description := VUndefined;
       s_tag := tag;
       s_props := Some args;
       s_children := [mkChild (VStr "span") (VStr "Default") None []];
       s_argTypes := plain (argTypes (controlsOf camel JSON_parse now config)) |} in
  Forall2 (fun s container => renderState kebab ToString browser tag s = Ok container)
    (default :: given) containers ->
  exists h1 story C' h2 h3,
    createStencilStory camel JSON_parse now config stories h
    = Some (h1, stories ++ [story], C') /\
    renders kebab ToString browser (story_render story) argss h1 = Some h2 /\
    render kebab ToString browser (story_render story) args h2
    = Some (h3, Ok (cl_mainEl (story_render story))) /\
    h3 !! cl_mainEl (story_render story) = Some (CMain containers) /\
    length containers = S (length items).
Proof.
  intros Hclone Hgiven tag default Hall.
  destruct (createStencilStory_inv config stories h items Hclone)
    as (h1 & story & C' & first & Hcreate & _ & Htag & HaT & Hinv).
  destruct (renders_inv _ _ _ _ _ _ argss Hgiven h1 Hinv) as (h2 & Hrenders & Hinv2).
  destruct (render_inv _ _ _ _ _ _ _ args Hinv2 Hgiven) as (h3 & Hrender & _ & Hmain).
  cbv zeta in Hrender, Hmain. rewrite Htag, HaT in Hrender, Hmain.
  change (defaultStateWith (cfg_Component config) (Some args)
            (plain (argTypes (controlsOf camel JSON_parse now config))))
    with default in Hrender, Hmain.
  fold tag in Hrender, Hmain.
  rewrite (renderStates_all _ _ _ Hall) in Hrender, Hmain.
  exists h1, story, C', h2, h3. repeat split; try assumption.
  apply Forall2_length in Hall. rewrite <- Hall. cbn [length]. f_equal. symmetry.
  apply (length_mapM _ _ _ Hgiven).
Qed.

(** C8: [createStencilStory] and the renders of its story leave every
    cell of the heap they were given as it was; they write to three cells of
    their own.  So the caller's array of states keeps its length and its
    element references, and the state objects it refers to keep their
    fields; the story's array is a copy that shares the element references
    behind the default state. *)
Theorem createStencilStory_keeps_states config stories h items given argss :
  cloneStates h (cfg_states config) = Some items ->
  mapM (stateAt h) items = Some given ->
  exists h1 story C' h2,
    createStencilStory camel JSON_parse now config stories h
    = Some (h1, stories ++ [story], C') /\
    renders kebab ToString browser (story_render story) argss h1 = Some h2 /\
    (forall l, l ∈ dom h -> h1 !! l = h !! l /\ h2 !! l = h !! l) /\
    (forall a, cfg_states config = Some a ->
               h1 !! a = Some (CArr items) /\ h2 !! a = Some (CArr items)) /\
    mapM (stateAt h2) items = Some given /\
    (cl_states (story_render story) ∉ dom h) /\
    (exists first,
       (first ∉ dom h) /\
       h2 !! cl_states (story_render story) = Some (CArr (first :: items))).
Proof.
  intros Hclone Hgiven.
  destruct (createStencilStory_inv config stories h items Hclone)
    as (h1 & story & C' & first & Hcreate & _ & _ & _ & Hinv).
  destruct (renders_inv _ _ _ _ _ _ argss Hgiven h1 Hinv) as (h2 & Hrenders & Hinv2).
  assert (Hframe : forall l, l ∈ dom h -> h1 !! l = h !! l /\ h2 !! l = h !! l).
  { intros l Hl. split; [apply (inv_frame _ _ _ _ _ _ Hinv) | apply (inv_frame _ _ _ _ _ _ Hinv2)];
      exact Hl. }
  assert (Harray : forall a, cfg_states config = Some a -> a ∈ dom h /\ h !! a = Some (CArr items)).
  { intros a Ha. unfold cloneStates in Hclone. rewrite Ha in Hclone.
    destruct (h !! a) as [[]|] eqn:E; try discriminate.
    injection Hclone as <-. split; [apply elem_of_dom; eauto | reflexivity]. }
  exists h1, story, C', h2.
  split; [exact Hcreate|]. split; [exact Hrenders|]. split; [exact Hframe|].
  split; [|split; [|split]].
  - intros a Ha. destruct (Harray a Ha) as [Hdom Hcell].
    destruct (Hframe a Hdom) as [-> ->]. split; exact Hcell.
  - rewrite <- Hgiven. apply mapM_stateAt_agree.
    eapply Forall_impl; [apply (mapM_stateAt_dom _ _ _ Hgiven)|].
    intros l Hl. apply Hframe, Hl.
  - apply (inv_states_new _ _ _ _ _ _ Hinv).
  - exists first. split.
    + apply (inv_first_new _ _ _ _ _ _ Hinv).
    + apply (inv_array _ _ _ _ _ _ Hinv2).
Qed.

End StoryFacts.

(** ** The story of the sample component *)

Lemma render_default_state_first_witness :
  exists h1 story C' h2 h3,
    createStencilStory Sample.camel Sample.JSON_parse Sample.clock Sample.config []
      Sample.callerHeap
    = Some (h1, [story], C') /\
    renders Sample.kebab Sample.ToString Sample.browser (story_render story)
      [[]; Sample.liveArgs] h1
    = Some h2 /\
    render Sample.kebab Sample.ToString Sample.browser (story_render story)
      Sample.liveArgs h2
    = Some (h3, Ok (cl_mainEl (story_render story))) /\
    h3 !! cl_mainEl (story_render story)
    = Some (CMain [Sample.defaultContainer; Sample.secondaryContainer]).
Proof.
  destruct (render_default_state_first Sample.camel Sample.kebab Sample.JSON_parse
              Sample.clock Sample.ToString Sample.browser Sample.config []
              Sample.callerHeap [2%positive] [Sample.secondary]
              [[]; Sample.liveArgs] Sample.liveArgs
              [Sample.defaultContainer; Sample.secondaryContainer]
              ltac:(vm_compute; reflexivity) ltac:(vm_compute; reflexivity)
              ltac:(repeat constructor))
    as (h1 & story & C' & h2 & h3 & Hcreate & Hrenders & Hrender & Hmain & _).
  exists h1, story, C', h2, h3. repeat split; assumption.
Defined.

(** C6 as stated fails on a config one of whose states has a child with
    the attribute name [data x]: [setAttribute] refuses the name, the
    render raises, and the main element is left with the containers of the
    default state and of the state before the offending one, two
    containers for three states. *)
Lemma render_default_state_first_counterexample :
  let config :=
    {| cfg_Component := Sample.MyButtonComponent; cfg_notes := VUndefined;
       cfg_states := Some 1%positive; cfg_args := None; cfg_argTypes := None |} in
  Dom.validAttributeName Sample.browser "data x" = false /\
  match createStencilStory Sample.camel Sample.JSON_parse Sample.clock config []
          Sample.spacedHeap with
  | Some (h1, [story], _) =>
      match render Sample.kebab Sample.ToString Sample.browser (story_render story)
              Sample.liveArgs h1 with
      | Some (h3, outcome) =>
          outcome = Throw (InvalidCharacterError "data x") /\
          h3 !! cl_mainEl (story_render story)
          = Some (CMain [Sample.defaultContainer; Sample.secondaryContainer])
      | None => False
      end
  | _ => False
  end.
Proof. vm_compute. split; [reflexivity | split; reflexivity]. Qed.

Lemma createStencilStory_keeps_states_witness :
  exists h1 story C' h2,
    createStencilStory Sample.camel Sample.JSON_parse Sample.clock Sample.config []
      Sample.callerHeap
    = Some (h1, [story], C') /\
    renders Sample.kebab Sample.ToString Sample.browser (story_render story)
      [[]; Sample.liveArgs] h1
    = Some h2 /\
    h2 !! 1%positive = Some (CArr [2%positive]) /\
    h2 !! 2%positive = Some (CState Sample.secondary).
Proof.
  destruct (createStencilStory_keeps_states Sample.camel Sample.kebab Sample.JSON_parse
              Sample.clock Sample.ToString Sample.browser Sample.config []
              Sample.callerHeap [2%positive] [Sample.secondary] [[]; Sample.liveArgs]
              ltac:(vm_compute; reflexivity) ltac:(vm_compute; reflexivity))
    as (h1 & story & C' & h2 & Hcreate & Hrenders & Hframe & Harray & _).
  exists h1, story, C', h2. repeat split; try assumption.
  - apply (Harray 1%positive eq_refl).
  - rewrite (proj2 (Hframe 2%positive ltac:(vm_compute; reflexivity))).
    vm_compute. reflexivity.
Defined.

(** ** Cleaning the notes *)

Module NotesFacts.

Lemma prefix_app_true p t : String.prefix p (p ++ t) = true.
Proof.
  induction p as [|a p IH]; [destruct t; reflexivity|].
  rewrite StrFacts.append_cons. cbn [String.prefix].
  destruct (ascii_dec a a); [exact IH | congruence].
Qed.

Lemma replace_go_skip from to q t :
  Str.replace_go from to (String.length q) (q ++ t) = Str.replace_go from to 0 t.
Proof.
  induction q as [|c q IH]; [reflexivity|].
  rewrite StrFacts.append_cons. cbn [String.length Str.replace_go]. exact IH.
Qed.

Lemma replaceAll_match from to t :
  from <> EmptyString ->
  Str.replaceAll from to (from ++ t) = (to ++ Str.replaceAll from to t)%string.
Proof.
  intros Hne. destruct from as [|a q]; [congruence|].
  unfold Str.replaceAll. rewrite StrFacts.append_cons. cbn [Str.replace_go].
  rewrite <- StrFacts.append_cons, prefix_app_true.
  cbn [String.length]. rewrite Nat.sub_succ, Nat.sub_0_r, replace_go_skip.
  reflexivity.
Qed.

Lemma replaceAll_no_match from to c s :
  String.prefix from (String c s) = false ->
  Str.replaceAll from to (String c s) = String c (Str.replaceAll from to s).
Proof. intros H. unfold Str.replaceAll. cbn [Str.replace_go]. rewrite H. reflexivity. Qed.

(** A text without the pattern is returned as it is. *)
Lemma replaceAll_absent from to s :
  Str.contains from s = false -> Str.replaceAll from to s = s.
Proof.
  induction s as [|c s IH]; [reflexivity|].
  rewrite StrFacts.contains_cons. intros [Hp Hs]%orb_false_iff.
  rewrite replaceAll_no_match by exact Hp. rewrite IH by exact Hs. reflexivity.
Qed.

Lemma prefix_pipe_clean s :
  String.prefix "|" (Str.replaceAll "\|" "` `" s) = true ->
  String.prefix "|" s = true.
Proof.
  destruct s as [|c s]; [discriminate|].
  destruct (String.prefix "\|" (String c s)) eqn:Ep.
  - apply StrFacts.prefix_app in Ep as (t & ->).
    rewrite replaceAll_match by discriminate. discriminate.
  - rewrite replaceAll_no_match by exact Ep.
    cbn [String.prefix]. destruct (ascii_dec "|"%char c); [|discriminate].
    intros _. destruct s; reflexivity.
Qed.

Lemma clean_no_escaped_pipe n :
  forall s, String.length s <= n ->
  Str.contains "\|" (Str.replaceAll "\|" "` `" s) = false.
Proof.
  induction n as [|n IH]; intros s Hlen.
  - destruct s; [reflexivity | cbn [String.length] in Hlen; lia].
  - destruct s as [|c s]; [reflexivity|].
    cbn [String.length] in Hlen.
    destruct (String.prefix "\|" (String c s)) eqn:Ep.
    + apply StrFacts.prefix_app in Ep as (t & Ht). rewrite Ht.
      rewrite replaceAll_match by discriminate.
      assert (Hlt : String.length t <= n).
      { apply (f_equal String.length) in Ht.
        rewrite StrFacts.length_append in Ht. cbn [String.length] in Ht. lia. }
      rewrite !StrFacts.append_cons.
      rewrite !StrFacts.contains_cons.
      rewrite !StrFacts.prefix_head_ne by discriminate.
      cbn [orb]. change (("" ++ ?x)%string) with x. apply IH, Hlt.
    + rewrite replaceAll_no_match by exact Ep.
      rewrite StrFacts.contains_cons, (IH s) by lia. rewrite orb_false_r.
      cbn [String.prefix] in *.
      destruct (ascii_dec "\"%char c) as [<-|]; [|reflexivity].
      destruct (String.prefix "|" (Str.replaceAll "\|" "` `" s)) eqn:E; [|reflexivity].
      apply prefix_pipe_clean in E. congruence.
Qed.

Lemma clean_nonempty s :
  s <> EmptyString -> Str.replaceAll "\|" "` `" s <> EmptyString.
Proof.
  destruct s as [|c s]; [congruence|]. intros _.
  destruct (String.prefix "\|" (String c s)) eqn:Ep.
  - apply StrFacts.prefix_app in Ep as (t & ->).
    rewrite replaceAll_match; discriminate.
  - rewrite replaceAll_no_match by exact Ep. discriminate.
Qed.

End NotesFacts.

Section CleanNotes.

Variable callReplace : jsval -> result jsval.

Lemma cleanNotes_cases notes :
  (Js.truthy notes = false -> cleanNotes callReplace notes = Ok VUndefined) /\
  (forall s, notes = VStr s -> s <> EmptyString ->
     exists s',
       cleanNotes callReplace notes = Ok (VStr s') /\
       Str.contains "\|" s' = false /\
       s' <> EmptyString /\
       (Str.contains "\|" s = false -> s' = s)) /\
  (Js.truthy notes = true -> Js.is_string notes = false -> ownReplace notes = false ->
     cleanNotes callReplace notes = Throw (TypeError "notes.replace is not a function")) /\
  (ownReplace notes = true -> cleanNotes callReplace notes = callReplace notes).
Proof.
  split; [|split; [|split]].
  - intros Hf. unfold cleanNotes. rewrite Hf. reflexivity.
  - intros s -> Hne. exists (Str.replaceAll "\|" "` `" s).
    unfold cleanNotes. rewrite JsFacts.truthy_nonempty_string by exact Hne.
    repeat split.
    + apply (NotesFacts.clean_no_escaped_pipe (String.length s)), le_n.
    + apply NotesFacts.clean_nonempty, Hne.
    + apply NotesFacts.replaceAll_absent.
  - intros Ht Hs Hr. unfold cleanNotes. rewrite Ht.
    destruct notes; try discriminate; try reflexivity.
    cbn [ownReplace] in Hr. rewrite Hr. reflexivity.
  - intros Hr. destruct notes; try discriminate.
    cbn [ownReplace] in Hr. unfold cleanNotes. cbn [Js.truthy]. rewrite Hr.
    reflexivity.
Qed.

(** X1: for notes that are a non-empty string, [cleanNotes] returns a
    non-empty string in which no [\|] is left, and the notes themselves
    when they had none; falsy notes give [undefined]; the code tests the
    notes for truth only and calls their [replace]: truthy notes that are
    not a string and have no [replace] of their own raise a [TypeError],
    and an object with a callable [replace] of its own gets what that
    method returns. *)
Theorem cleanNotes_result notes :
  (Js.truthy notes = false -> cleanNotes callReplace notes = Ok VUndefined) /\
  (forall s, notes = VStr s -> s <> EmptyString ->
     exists s',
       cleanNotes callReplace notes = Ok (VStr s') /\
       Str.contains "\|" s' = false /\
       s' <> EmptyString /\
       (Str.contains "\|" s = false -> s' = s)) /\
  (Js.truthy notes = true -> Js.is_string notes = false -> ownReplace notes = false ->
     cleanNotes callReplace notes = Throw (TypeError "notes.replace is not a function")) /\
  (ownReplace notes = true -> cleanNotes callReplace notes = callReplace notes).
Proof. exact (cleanNotes_cases notes). Qed.

(** X2: cleaning is idempotent on notes that have no [replace] of their
    own: what [cleanNotes] returns for them, it returns unchanged when
    given it again. *)
Theorem cleanNotes_idempotent notes v :
  ownReplace notes = false ->
  cleanNotes callReplace notes = Ok v -> cleanNotes callReplace v = Ok v.
Proof.
  intros Hr. destruct (Js.truthy notes) eqn:Ht.
  - destruct (Js.is_string notes) eqn:Hs.
    + destruct notes; try discriminate.
      assert (Hne : s <> EmptyString).
      { intros ->. discriminate. }
      destruct (proj1 (proj2 (cleanNotes_cases (VStr s))) s eq_refl Hne)
        as (s' & Hs' & Hclean & Hne' & _).
      rewrite Hs'. intros [= <-].
      destruct (proj1 (proj2 (cleanNotes_cases (VStr s'))) s' eq_refl Hne')
        as (s'' & Hs'' & _ & _ & Hsame).
      rewrite Hs'', (Hsame Hclean). reflexivity.
    + rewrite (proj1 (proj2 (proj2 (cleanNotes_cases notes))) Ht Hs Hr).
      discriminate.
  - rewrite (proj1 (cleanNotes_cases notes) Ht). intros [= <-]. reflexivity.
Qed.

End CleanNotes.

Lemma cleanNotes_result_witness :
  cleanNotes Sample.callReplace VNull = Ok VUndefined /\
  cleanNotes Sample.callReplace (VStr "a \| b") = Ok (VStr "a ` ` b") /\
  cleanNotes Sample.callReplace (VNum 3)
  = Throw (TypeError "notes.replace is not a function") /\
  cleanNotes Sample.callReplace Sample.replacing = Ok Sample.replacing.
Proof.
  split; [|split; [|split]].
  - apply (proj1 (cleanNotes_result Sample.callReplace VNull)). reflexivity.
  - destruct (proj1 (proj2 (cleanNotes_result Sample.callReplace (VStr "a \| b")))
                "a \| b" eq_refl ltac:(discriminate)) as (s' & Hs' & _).
    rewrite Hs'. vm_compute in Hs'. injection Hs' as <-. reflexivity.
  - apply (proj1 (proj2 (proj2 (cleanNotes_result Sample.callReplace (VNum 3)))));
      reflexivity.
  - apply (proj2 (proj2 (proj2 (cleanNotes_result Sample.callReplace Sample.replacing)))).
    reflexivity.
Defined.

Lemma cleanNotes_idempotent_witness :
  cleanNotes Sample.callReplace (VStr "a ` ` b") = Ok (VStr "a ` ` b").
Proof.
  apply (cleanNotes_idempotent Sample.callReplace (VStr "a \| b") (VStr "a ` ` b"));
    reflexivity.
Defined.

(** Without the restriction cleaning is not idempotent: the [replace] of
    an object may return a text that cleaning changes. *)
Lemma cleanNotes_own_replace_not_idempotent :
  cleanNotes Sample.escapingReplace Sample.replacing = Ok (VStr "a \| b") /\
  cleanNotes Sample.escapingReplace (VStr "a \| b") = Ok (VStr "a ` ` b").
Proof. split; reflexivity. Qed.

(** ** More on finding the component *)

Section ExportsMore.

Lemma NoDup_lookup m k v :
  List.NoDup (Js.keys m) -> In (k, v) m -> Js.lookup m k = v.
Proof.
  induction m as [|[k0 v0] m IH]; [intros _ []|].
  cbn [Js.keys map fst]. intros Hnd [[= -> ->] | Hin].
  - cbn [Js.lookup]. rewrite String.eqb_refl. reflexivity.
  - apply List.NoDup_cons_iff in Hnd as [Hnot Hnd].
    cbn [Js.lookup]. destruct (String.eqb_spec k0 k) as [->|_].
    + exfalso. apply Hnot. unfold Js.keys in *.
      apply in_map_iff. exists (k, v). split; [reflexivity | exact Hin].
    + apply IH; assumption.
Qed.

Lemma findExportKey_cases m entries :
  (forall k v, In (k, v) entries -> Js.lookup m k = v) ->
  match findExportKey m (Js.keys entries) with
  | Ok (Some k) =>
      exists pre v post,
        entries = pre ++ (k, v) :: post /\ quacks v = Ok true /\ Forall scanned pre
  | Ok None => Forall scanned entries
  | Throw e =>
      exists pre k v post,
        entries = pre ++ (k, v) :: post /\ quacks v = Throw e /\ Forall scanned pre
  end.
Proof.
  induction entries as [|[k0 v0] entries IH]; intros Hcons; [constructor|].
  cbn [Js.keys map fst findExportKey].
  rewrite (Hcons k0 v0 (or_introl eq_refl)).
  destruct (quacks v0) as [[]|e] eqn:Eq; cbn [bind].
  - exists [], v0, entries. repeat split; [exact Eq | constructor].
  - assert (Hrest : forall k v, In (k, v) entries -> Js.lookup m k = v).
    { intros k v Hin. apply Hcons. right. exact Hin. }
    specialize (IH Hrest). fold (Js.keys entries).
    destruct (findExportKey m (Js.keys entries)) as [[k|]|e].
    + destruct IH as (pre & v & post & -> & Hv & Hpre).
      exists ((k0, v0) :: pre), v, post. repeat split; [exact Hv|].
      constructor; [exact Eq | exact Hpre].
    + constructor; [exact Eq | exact IH].
    + destruct IH as (pre & k & v & post & -> & Hv & Hpre).
      exists ((k0, v0) :: pre), k, v, post. repeat split; [exact Hv|].
      constructor; [exact Eq | exact Hpre].
  - exists [], k0, v0, entries. repeat split; [exact Eq | constructor].
Qed.

Lemma quacks_throw_nullish v e : quacks v = Throw e -> Js.is_nullish v = true.
Proof.
  intros He. destruct (Js.is_nullish v) eqn:En; [reflexivity|].
  destruct (quacks_total v En) as (b & Hb). congruence.
Qed.

Lemma scanned_keys m pre rest :
  List.NoDup (Js.keys (pre ++ rest)) -> m = pre ++ rest -> Forall scanned pre ->
  Forall (fun k => quacks (Js.lookup m k) = Ok false) (Js.keys pre).
Proof.
  intros Hnd -> Hpre. rewrite List.Forall_forall in *. intros k Hk.
  unfold Js.keys in Hk. apply in_map_iff in Hk as ([k' v] & Hk & Hin).
  simpl in Hk. subst k'.
  rewrite (NoDup_lookup _ k v Hnd) by (apply in_or_app; left; exact Hin).
  apply (Hpre _ Hin).
Qed.

(** X3: [getComponentFromExports] raises exactly when an export that is
    [undefined] or [null] is enumerated before any export that passes the
    shape check. *)
Theorem getComponentFromExports_throws_iff (_module : obj) :
  List.NoDup (Js.keys _module) ->
  (exists e, getComponentFromExports _module = Throw e) <->
  (exists pre k v post,
     _module = pre ++ (k, v) :: post /\ Js.is_nullish v = true /\
     Forall scanned pre).
Proof.
  intros Hnd. split.
  - intros (e & He). unfold getComponentFromExports in He.
    pose proof (findExportKey_cases _module _module
                  (fun k v => NoDup_lookup _module k v Hnd)) as Hcases.
    destruct (findExportKey _module (Js.keys _module)) as [key|e']; [discriminate|].
    destruct Hcases as (pre & k & v & post & Hm & Hv & Hpre).
    exists pre, k, v, post. repeat split; try assumption.
    apply (quacks_throw_nullish v e' Hv).
  - intros (pre & k & v & post & Hm & Hv & Hpre).
    destruct (quacks_nullish v Hv) as (e & He). exists e.
    unfold getComponentFromExports.
    pose proof (scanned_keys _module pre ((k, v) :: post)
                  ltac:(rewrite <- Hm; exact Hnd) Hm Hpre) as Hks.
    rewrite Hm at 2. rewrite keys_app, (findExportKey_skip _ _ _ Hks).
    cbn [Js.keys map fst findExportKey].
    rewrite (NoDup_lookup _module k v Hnd)
      by (rewrite Hm; apply in_or_app; right; left; reflexivity).
    rewrite He. reflexivity.
Qed.

Lemma getComponentFromExports_throws_iff_witness :
  exists e,
    getComponentFromExports
      [("version", Sample.version); ("helper", VUndefined); ("MyButton", Sample.MyButton)]
    = Throw e.
Proof.
  apply (proj2 (getComponentFromExports_throws_iff
                  [("version", Sample.version); ("helper", VUndefined);
                   ("MyButton", Sample.MyButton)]
                  ltac:(repeat constructor; simpl; intuition discriminate))).
  exists [("version", Sample.version)], "helper", VUndefined,
         [("MyButton", Sample.MyButton)].
  repeat split. repeat constructor.
Defined.

(** X4: whenever [getComponentFromExports] returns, the result is either
    the first export that passes the shape check, every export before it
    having failed it, or, when every export fails it, whatever the module
    has under the name ["undefined"]: an export that fails the check is
    never returned under its own name. *)
Theorem getComponentFromExports_returns (_module : obj) v :
  List.NoDup (Js.keys _module) ->
  getComponentFromExports _module = Ok v ->
  (exists pre k post,
     _module = pre ++ (k, v) :: post /\ quacks v = Ok true /\ Forall scanned pre) \/
  (Forall scanned _module /\ v = Js.lookup _module "undefined").
Proof.
  intros Hnd. unfold getComponentFromExports.
  pose proof (findExportKey_cases _module _module
                (fun k v => NoDup_lookup _module k v Hnd)) as Hcases.
  destruct (findExportKey _module (Js.keys _module)) as [[key|]|e];
    cbn [bind from_option id]; [| |discriminate].
  - destruct Hcases as (pre & v' & post & Hm & Hv & Hpre). intros [= <-].
    left. exists pre, key, post.
    rewrite (NoDup_lookup _module key v' Hnd)
      by (rewrite Hm; apply in_or_app; right; left; reflexivity).
    auto.
  - intros [= <-]. right. auto.
Qed.

Lemma getComponentFromExports_returns_witness :
  let m := [("version", Sample.version); ("Unscoped", Sample.Unscoped);
            ("MyButton", Sample.MyButton)] in
  (exists pre k post,
     m = pre ++ (k, Sample.MyButton) :: post /\
     quacks Sample.MyButton = Ok true /\ Forall scanned pre) \/
  (Forall scanned m /\ Sample.MyButton = Js.lookup m "undefined").
Proof.
  exact (getComponentFromExports_returns
           [("version", Sample.version); ("Unscoped", Sample.Unscoped);
            ("MyButton", Sample.MyButton)] Sample.MyButton
           ltac:(repeat constructor; simpl; intuition discriminate) eq_refl).
Defined.

End ExportsMore.

(** ** More on building the configs *)

Section ConfigMore.

Variable path_basename : string -> string.
Variable path_dirname : string -> string.
Variable ToString : jsval -> string.
Variable callReplace : jsval -> result jsval.

Lemma set_length_le o k v : length (Js.set o k v) <= S (length o).
Proof.
  induction o as [|[k0 v0] o IH]; [simpl; lia|].
  cbn [Js.set]. destruct (String.eqb k0 k); cbn [length]; lia.
Qed.

Lemma addConfig_step componentsCtx storiesCtx b compRoute b' :
  addConfig path_basename path_dirname ToString callReplace componentsCtx storiesCtx b compRoute
  = Ok b' ->
  warnings b'
  = warnings b ++ (if componentMissing componentsCtx compRoute
                   then [warningFor compRoute] else []) /\
  length (configs b') + length (warnings b')
  <= S (length (configs b) + length (warnings b)) /\
  (forall k, In k (Js.keys (configs b')) ->
     In k (Js.keys (configs b)) \/ namesComponent ToString componentsCtx [compRoute] k).
Proof.
  unfold addConfig, componentMissing. cbv zeta.
  destruct (getComponentFromExports (ctx_load componentsCtx compRoute))
    as [Component|e] eqn:EC; cbn [bind]; [|discriminate].
  destruct (Js.truthy Component) eqn:Et; cbn [negb].
  - destruct (Js.get Component "name") as [componentName|e] eqn:En; cbn [bind];
      [|discriminate].
    assert (Hassign : forall v,
      let b1 := {| configs := Js.set (configs b) (propertyKey ToString componentName) v;
                   warnings := warnings b |} in
      warnings b1 = warnings b ++ [] /\
      length (configs b1) + length (warnings b1)
      <= S (length (configs b) + length (warnings b)) /\
      (forall k, In k (Js.keys (configs b1)) ->
         In k (Js.keys (configs b)) \/ namesComponent ToString componentsCtx [compRoute] k)).
    { intros v b1. subst b1. cbn [configs warnings]. rewrite app_nil_r.
      split; [reflexivity|]. split.
      - pose proof (set_length_le (configs b) (propertyKey ToString componentName) v). lia.
      - intros k [-> | Hk]%JsFacts.keys_set; [right | left; exact Hk].
        exists compRoute, Component, componentName.
        repeat split; try assumption. left. reflexivity. }
    destruct (List.find _ (ctx_keys storiesCtx)) as [route|].
    + destruct (Js.truthy (VStr route)).
      * destruct (Js.is_function _).
        -- intros [= <-]. apply Hassign.
        -- destruct (storyConfig _ _) as [config|e]; cbn [bind]; [|discriminate].
           intros [= <-]. apply Hassign.
      * intros [= <-]. apply Hassign.
    + intros [= <-]. apply Hassign.
  - intros [= <-]. unfold warned, warningFor. cbn [configs warnings].
    split; [reflexivity|]. split.
    + rewrite length_app. cbn [length]. lia.
    + intros k Hk. left. exact Hk.
Qed.

Lemma reduce_accounts componentsCtx storiesCtx routes :
  forall b b',
  reduce (addConfig path_basename path_dirname ToString callReplace componentsCtx storiesCtx)
    routes b = Ok b' ->
  warnings b'
  = warnings b ++ map warningFor (List.filter (componentMissing componentsCtx) routes) /\
  length (configs b') + length (warnings b')
  <= length routes + (length (configs b) + length (warnings b)) /\
  (forall k, In k (Js.keys (configs b')) ->
     In k (Js.keys (configs b)) \/ namesComponent ToString componentsCtx routes k).
Proof.
  induction routes as [|r routes IH]; intros b b'.
  - cbn [reduce]. intros [= <-]. cbn [List.filter map length].
    rewrite app_nil_r. repeat split; [lia | auto].
  - cbn [reduce].
    destruct (addConfig _ _ _ _ componentsCtx storiesCtx b r) as [b1|e] eqn:E1;
      cbn [bind]; [|discriminate].
    intros Hrest. destruct (addConfig_step _ _ _ _ _ E1) as (Hw1 & Hl1 & Hk1).
    destruct (IH _ _ Hrest) as (Hw & Hl & Hk).
    split; [|split].
    + rewrite Hw, Hw1. cbn [List.filter].
      destruct (componentMissing componentsCtx r); cbn [map];
        rewrite <- app_assoc; reflexivity.
    + cbn [length]. lia.
    + intros k Hin. destruct (Hk k Hin) as [Hin1 | (r' & C & n & Hr' & HC)].
      * destruct (Hk1 k Hin1) as [Hin0 | (r' & C & n & [<- | []] & HC)];
          [left; exact Hin0 | right].
        exists r, C, n. split; [left; reflexivity | exact HC].
      * right. exists r', C, n. split; [right; exact Hr' | exact HC].
Qed.

(** X5: when [buildGeneratorConfigs] returns, every route is accounted
    for: the warnings are, in route order, one per route whose module gave
    no component; each key of the result is the name of a component found
    on some route; and warnings and config entries together are at most
    as many as the routes. *)
Theorem buildGeneratorConfigs_accounts componentsCtx storiesCtx b :
  buildGeneratorConfigs path_basename path_dirname ToString callReplace componentsCtx storiesCtx
  = Ok b ->
  warnings b
  = map warningFor
      (List.filter (componentMissing componentsCtx) (ctx_keys componentsCtx)) /\
  length (configs b) + length (warnings b) <= length (ctx_keys componentsCtx) /\
  (forall k, In k (Js.keys (configs b)) ->
     namesComponent ToString componentsCtx (ctx_keys componentsCtx) k).
Proof.
  intros Hb. destruct (reduce_accounts _ _ _ _ _ Hb) as (Hw & Hl & Hk).
  cbn [configs warnings length] in *. split; [exact Hw|]. split; [lia|].
  intros k Hin. destruct (Hk k Hin) as [[] | H]. exact H.
Qed.

Lemma contains_nonempty needle s :
  needle <> EmptyString -> Str.contains needle s = true -> s <> EmptyString.
Proof.
  intros Hne Hc ->. destruct needle; [congruence | discriminate].
Qed.

(** X6: a component whose story module has no default export (or a
    [null] one) makes the whole build fail: once a component is found on a
    route and a story route matches its directory, reading [states] from
    the missing export raises and [buildGeneratorConfigs] returns
    nothing. *)
Theorem buildGeneratorConfigs_story_without_default
  componentsCtx storiesCtx before compRoute after Component storyRoute :
  ctx_keys componentsCtx = before ++ compRoute :: after ->
  getComponentFromExports (ctx_load componentsCtx compRoute) = Ok Component ->
  Js.truthy Component = true ->
  List.find
    (fun k => Str.contains
                ("/" ++ path_basename (path_dirname compRoute) ++ "/")%string k)
    (ctx_keys storiesCtx) = Some storyRoute ->
  Js.is_nullish (Js.lookup (ctx_load storiesCtx storyRoute) "default") = true ->
  (forall b, exists e,
     addConfig path_basename path_dirname ToString callReplace componentsCtx storiesCtx b compRoute
     = Throw e) /\
  exists e,
    buildGeneratorConfigs path_basename path_dirname ToString callReplace componentsCtx storiesCtx
    = Throw e.
Proof.
  intros Hkeys HC Ht Hfind Hnull.
  assert (Hstep : forall b, exists e,
    addConfig path_basename path_dirname ToString callReplace componentsCtx storiesCtx b compRoute
    = Throw e).
  { intros b. unfold addConfig. cbv zeta. rewrite HC. cbn [bind]. rewrite Ht.
    cbn [negb].
    destruct (Js.get Component "name") as [componentName|e] eqn:En; cbn [bind];
      [|eauto].
    rewrite Hfind.
    apply List.find_some in Hfind as [_ Hcontains].
    rewrite (JsFacts.truthy_nonempty_string storyRoute)
      by (eapply contains_nonempty; [|exact Hcontains]; discriminate).
    destruct (Js.lookup (ctx_load storiesCtx storyRoute) "default");
      try discriminate; cbn [Js.is_function storyConfig Js.get bind]; eauto. }
  split; [exact Hstep|].
  unfold buildGeneratorConfigs. rewrite Hkeys, reduce_app.
  destruct (reduce _ before _) as [b|e]; cbn [bind]; [|eauto].
  cbn [reduce]. destruct (Hstep b) as (e & ->). eauto.
Qed.

End ConfigMore.

Lemma buildGeneratorConfigs_accounts_witness :
  warnings
    {| configs := [("MyButton", plain [("Component", Sample.MyButton)])];
       warnings := [warningFor Sample.unscopedRoute] |}
  = map warningFor
      (List.filter (componentMissing Sample.library) (ctx_keys Sample.library)).
Proof.
  apply (buildGeneratorConfigs_accounts Sample.path_basename Sample.path_dirname
           Sample.ToString Sample.callReplace Sample.library Sample.noStories _ eq_refl).
Defined.

Lemma buildGeneratorConfigs_story_without_default_witness :
  exists e,
    buildGeneratorConfigs Sample.path_basename Sample.path_dirname Sample.ToString Sample.callReplace
      Sample.library Sample.storiesWithoutDefault
    = Throw e.
Proof.
  apply (buildGeneratorConfigs_story_without_default Sample.path_basename
           Sample.path_dirname Sample.ToString Sample.callReplace Sample.library
           Sample.storiesWithoutDefault [] Sample.route [Sample.unscopedRoute]
           Sample.MyButton Sample.storyRoute eq_refl eq_refl eq_refl eq_refl eq_refl).
Defined.

(** ** Modules without a component that do not end in a warning *)

Section ConfigMissing.

Variable path_basename : string -> string.
Variable path_dirname : string -> string.
Variable ToString : jsval -> string.
Variable callReplace : jsval -> result jsval.

(** C1: a route whose module has no export that passes the shape check
    does not always end in a warning.  The check reads [_export.prototype]
    without a guard: when one of the exports is [undefined] or [null] and
    the exports before it are not, the check raises on it, and the
    exception leaves [getComponentFromExports], the callback of [reduce] and
    [buildGeneratorConfigs], which returns no accumulator at all.  And
    [find] having found no key, the module is read under the name
    ["undefined"]: when it has a truthy export of that name, this export is
    taken for the component and the route is given no warning. *)
Theorem buildGeneratorConfigs_missing_component_bug
  componentsCtx storiesCtx before compRoute after b :
  let _module := ctx_load componentsCtx compRoute in
  let step :=
    addConfig path_basename path_dirname ToString callReplace componentsCtx storiesCtx in
  ctx_keys componentsCtx = before ++ compRoute :: after ->
  reduce step before {| configs := []; warnings := [] |} = Ok b ->
  Forall failsCheck _module ->
  (forall pre k v post,
     _module = pre ++ (k, v) :: post ->
     List.NoDup (Js.keys _module) ->
     Forall nonNullish pre ->
     Js.is_nullish v = true ->
     exists e,
       quacks v = Throw e /\
       getComponentFromExports _module = Throw e /\
       step b compRoute = Throw e /\
       buildGeneratorConfigs path_basename path_dirname ToString callReplace
         componentsCtx storiesCtx
       = Throw e) /\
  (Forall nonNullish _module ->
   Js.truthy (Js.lookup _module "undefined") = true ->
   getComponentFromExports _module = Ok (Js.lookup _module "undefined") /\
   step b compRoute <> Ok (warned b compRoute) /\
   forall b', step b compRoute = Ok b' -> warnings b' = warnings b).
Proof.
  intros _module step Hkeys Hbefore Hfail. split.
  - intros pre k v post Hm Hnd Hpre Hv.
    destruct (quacks_nullish v Hv) as (e & He). exists e.
    assert (Hscanned : Forall scanned pre).
    { rewrite Hm in Hfail. apply List.Forall_app in Hfail as [Hfail _].
      rewrite List.Forall_forall in *. intros x Hx.
      apply quacks_false; [apply (Hpre x Hx) | apply (Hfail x Hx)]. }
    assert (Hget : getComponentFromExports _module = Throw e).
    { unfold getComponentFromExports.
      pose proof (scanned_keys _module pre ((k, v) :: post)
                    ltac:(rewrite <- Hm; exact Hnd) Hm Hscanned) as Hks.
      rewrite Hm at 2. rewrite keys_app, (findExportKey_skip _ _ _ Hks).
      cbn [Js.keys map fst findExportKey].
      rewrite (NoDup_lookup _module k v Hnd)
        by (rewrite Hm; apply in_or_app; right; left; reflexivity).
      rewrite He. reflexivity. }
    assert (Hstep : step b compRoute = Throw e).
    { unfold step, addConfig. cbv zeta. fold _module. rewrite Hget. reflexivity. }
    repeat split; try assumption.
    unfold buildGeneratorConfigs. fold step. rewrite Hkeys, reduce_app, Hbefore.
    cbn [bind reduce]. rewrite Hstep. reflexivity.
  - intros Hnn Ht.
    assert (Hget : getComponentFromExports _module = Ok (Js.lookup _module "undefined"))
      by (apply getComponentFromExports_none; assumption).
    assert (Hwarnings : forall b', step b compRoute = Ok b' -> warnings b' = warnings b).
    { intros b' Hb'.
      destruct (addConfig_step path_basename path_dirname ToString callReplace
                  _ _ _ _ _ Hb') as (Hw & _).
      rewrite Hw. unfold componentMissing. fold _module. rewrite Hget, Ht.
      cbn [negb]. apply app_nil_r. }
    split; [exact Hget|]. split; [|exact Hwarnings].
    intros Hwarned. apply Hwarnings in Hwarned. cbn [warned warnings] in Hwarned.
    apply (f_equal (@length string)) in Hwarned.
    rewrite length_app in Hwarned. cbn [length] in Hwarned. lia.
Qed.

End ConfigMissing.

Lemma buildGeneratorConfigs_missing_component_bug_witness :
  let build :=
    buildGeneratorConfigs Sample.path_basename Sample.path_dirname Sample.ToString
      Sample.callReplace in
  (Forall failsCheck [("helper", VNull)] /\
   build (Sample.components [("helper", VNull)]) Sample.noStories
   = Throw (TypeError "Cannot read properties of null")) /\
  (Forall failsCheck [("undefined", Sample.Unscoped)] /\
   build (Sample.components [("undefined", Sample.Unscoped)]) Sample.noStories
   = Ok {| configs := [("Unscoped", plain [("Component", Sample.Unscoped)])];
           warnings := [] |} /\
   addConfig Sample.path_basename Sample.path_dirname Sample.ToString
     Sample.callReplace (Sample.components [("undefined", Sample.Unscoped)])
     Sample.noStories {| configs := []; warnings := [] |} Sample.route
   <> Ok (warned {| configs := []; warnings := [] |} Sample.route)).
Proof.
  cbv zeta. split; split.
  - repeat constructor; discriminate.
  - destruct (proj1 (buildGeneratorConfigs_missing_component_bug
                       Sample.path_basename Sample.path_dirname Sample.ToString
                       Sample.callReplace (Sample.components [("helper", VNull)])
                       Sample.noStories [] Sample.route []
                       {| configs := []; warnings := [] |} eq_refl eq_refl
                       ltac:(repeat constructor; discriminate))
                [] "helper" VNull [] eq_refl
                ltac:(repeat constructor; simpl; intuition discriminate)
                ltac:(constructor) eq_refl)
      as (e & He & _ & _ & Hbuild).
    rewrite Hbuild. f_equal. cbn in He. injection He as <-. reflexivity.
  - repeat constructor; discriminate.
  - split; [reflexivity|].
    apply (proj2 (buildGeneratorConfigs_missing_component_bug
                    Sample.path_basename Sample.path_dirname Sample.ToString
                    Sample.callReplace
                    (Sample.components [("undefined", Sample.Unscoped)])
                    Sample.noStories [] Sample.route []
                    {| configs := []; warnings := [] |} eq_refl eq_refl
                    ltac:(repeat constructor; discriminate))
             ltac:(repeat constructor) eq_refl).
Defined.

(** ** More on the control of a prop *)

Section ControlMore.

Variable camel : string -> string.
Variable JSON_parse : string -> option jsval.
Variable now : Z.

(** X7: an args override wins over the default text of the prop, and an
    override that is falsy ([false], [0], the empty string, [null]) counts
    for nothing: the result is the one obtained with no args at all. *)
Theorem getControlForProp_args_override prop opts :
  (Js.truthy (argsOption camel prop opts) = true ->
   pc_default (getControlForProp camel JSON_parse now prop opts)
   = argsOption camel prop opts) /\
  (Js.truthy (argsOption camel prop opts) = false ->
   getControlForProp camel JSON_parse now prop opts
   = getControlForProp camel JSON_parse now prop
       {| args := []; argTypes := argTypes opts |}).
Proof.
  split; intros H.
  - rewrite pc_default_eq. unfold chooseDefault. rewrite H. reflexivity.
  - rewrite !getControlForProp_unfold. cbv zeta.
    change (argTypesOptions camel prop {| args := []; argTypes := argTypes opts |})
      with (argTypesOptions camel prop opts).
    unfold chooseDefault. rewrite H. reflexivity.
Qed.

(** X8: the control returned is always a fresh plain object whose
    [defaultValue] is the default returned with it, also when an override
    brings a [defaultValue] of its own; without an override its keys are
    [control] and [defaultValue] and nothing else. *)
Theorem getControlForProp_control_shape prop opts :
  let r := getControlForProp camel JSON_parse now prop opts in
  (exists props,
     pc_control r = plain props /\ Js.lookup props "defaultValue" = pc_default r) /\
  (Js.truthy (argTypesOptions camel prop opts) = false ->
   forall k, In k (Js.keys (Js.spread (pc_control r))) <->
             k = "control" \/ k = "defaultValue").
Proof.
  cbv zeta. rewrite getControlForProp_unfold. cbv zeta. cbn [pc_control pc_default].
  split.
  - eexists. split; [reflexivity|]. apply JsFacts.lookup_set_eq.
  - intros Hno k. cbn [plain Js.spread]. rewrite JsFacts.keys_set.
    unfold chooseControl, controlBranch. rewrite Hno.
    destruct (Str.test_words_i primitive_types (type prop)); cbn [fst].
    + simpl. intuition congruence.
    + destruct (Str.test_words_i ["string"] (type prop)).
      * destruct (negb _); simpl; intuition congruence.
      * destruct (Str.contains "date" (attribute prop)); simpl; intuition congruence.
Qed.

(** X9: for a prop whose type is none of [string], [number], [boolean],
    [object] and that has no argTypes override, the attribute name
    decides: a name that contains [date] gives a [date] control, whose
    default is the current date unless args or a truthy default text say
    otherwise; any other name gives the [text] control with the empty
    string as default under the same condition. *)
Theorem getControlForProp_other_types prop opts :
  Js.truthy (argTypesOptions camel prop opts) = false ->
  Str.test_words_i basic_types (type prop) = false ->
  let r := getControlForProp camel JSON_parse now prop opts in
  let untouched :=
    Js.truthy (argsOption camel prop opts) = false /\
    Js.truthy (defaultValue prop) = false in
  (Str.contains "date" (attribute prop) = true ->
   controlType (pc_control r) = Ok (VStr "date") /\
   (untouched -> pc_default r = VDate now)) /\
  (Str.contains "date" (attribute prop) = false ->
   controlType (pc_control r) = Ok (VStr "text") /\
   (untouched -> pc_default r = VStr "")).
Proof.
  intros Hno Hbasic. cbv zeta.
  assert (Hp : Str.test_words_i primitive_types (type prop) = false).
  { destruct (Str.test_words_i primitive_types (type prop)) eqn:E; [|reflexivity].
    revert Hbasic E. unfold Str.test_words_i, basic_types, primitive_types.
    cbn [existsb]. intros H1 H2.
    apply orb_false_iff in H1 as [_ H1]. congruence. }
  assert (Hs : Str.test_words_i ["string"] (type prop) = false).
  { revert Hbasic. unfold Str.test_words_i, basic_types. cbn [existsb].
    intros [H _]%orb_false_iff. rewrite H. reflexivity. }
  split; intros Hdate.
  - split.
    + unfold controlType. rewrite control_inner.
      unfold chooseControl, controlBranch. rewrite Hno, Hp, Hs, Hdate. reflexivity.
    + intros [Ha Hd]. rewrite pc_default_eq. unfold chooseDefault. rewrite Ha, Hd.
      unfold chooseControl, controlBranch. rewrite Hno, Hp, Hs, Hdate. reflexivity.
  - split.
    + unfold controlType. rewrite control_inner.
      unfold chooseControl, controlBranch. rewrite Hno, Hp, Hs, Hdate. reflexivity.
    + intros [Ha Hd]. rewrite pc_default_eq. unfold chooseDefault. rewrite Ha, Hd.
      unfold chooseControl, controlBranch. rewrite Hno, Hp, Hs, Hdate. reflexivity.
Qed.

(** X10: with no args override, a non-empty default text that contains
    no quoted word and no two adjacent quotes and that [JSON.parse]
    accepts becomes the parsed value, whatever it is; a truthy default that
    is not a string is taken as it is. *)
Theorem getControlForProp_parsed_default prop opts :
  Js.truthy (argsOption camel prop opts) = false ->
  (forall s v,
     defaultValue prop = VStr s -> s <> EmptyString ->
     Str.test_quoted Str.is_word s = false -> Str.contains "''" s = false ->
     JSON_parse s = Some v ->
     pc_default (getControlForProp camel JSON_parse now prop opts) = v) /\
  (Js.is_string (defaultValue prop) = false ->
   Js.truthy (defaultValue prop) = true ->
   pc_default (getControlForProp camel JSON_parse now prop opts) = defaultValue prop).
Proof.
  intros Hargs. rewrite pc_default_eq. unfold chooseDefault. rewrite Hargs. split.
  - intros s v Hd Hne Hq He Hp. rewrite Hd.
    rewrite JsFacts.truthy_nonempty_string by exact Hne.
    unfold parseDefault. rewrite Hq, He, Hp. reflexivity.
  - intros Hs Ht. rewrite Ht. destruct (defaultValue prop); try discriminate; reflexivity.
Qed.

End ControlMore.

Lemma getControlForProp_args_override_witness :
  pc_default (getControlForProp Sample.camel Sample.JSON_parse Sample.now Sample.disabled
                {| args := [("disabled", VBool true)]; argTypes := [] |})
  = VBool true /\
  getControlForProp Sample.camel Sample.JSON_parse Sample.now Sample.color
    {| args := [("color", VStr "")]; argTypes := [] |}
  = getControlForProp Sample.camel Sample.JSON_parse Sample.now Sample.color
      Sample.noOptions.
Proof.
  split.
  - apply (proj1 (getControlForProp_args_override Sample.camel Sample.JSON_parse
                    Sample.now Sample.disabled
                    {| args := [("disabled", VBool true)]; argTypes := [] |})).
    reflexivity.
  - apply (proj2 (getControlForProp_args_override Sample.camel Sample.JSON_parse
                    Sample.now Sample.color
                    {| args := [("color", VStr "")]; argTypes := [] |})).
    reflexivity.
Defined.

Lemma getControlForProp_control_shape_witness :
  In "control"
    (Js.keys (Js.spread (pc_control
       (getControlForProp Sample.camel Sample.JSON_parse Sample.now
          Sample.color Sample.noOptions)))).
Proof.
  apply (proj2 (getControlForProp_control_shape Sample.camel Sample.JSON_parse
                  Sample.now Sample.color Sample.noOptions) eq_refl "control").
  left. reflexivity.
Defined.

Lemma getControlForProp_other_types_witness :
  pc_default (getControlForProp Sample.camel Sample.JSON_parse Sample.now
                Sample.startDate Sample.noOptions) = VDate Sample.now /\
  controlType (pc_control (getControlForProp Sample.camel Sample.JSON_parse Sample.now
                             Sample.items Sample.noOptions)) = Ok (VStr "text").
Proof.
  destruct (getControlForProp_other_types Sample.camel Sample.JSON_parse Sample.now
              Sample.startDate Sample.noOptions eq_refl eq_refl) as [Hdate _].
  destruct (getControlForProp_other_types Sample.camel Sample.JSON_parse Sample.now
              Sample.items Sample.noOptions eq_refl eq_refl) as [_ Htext].
  split.
  - apply (proj2 (Hdate eq_refl)). split; reflexivity.
  - apply (proj1 (Htext eq_refl)).
Defined.

Lemma getControlForProp_parsed_default_witness :
  pc_default (getControlForProp Sample.camel Sample.JSON_parse Sample.now
                Sample.disabled Sample.noOptions) = VBool false.
Proof.
  apply (proj1 (getControlForProp_parsed_default Sample.camel Sample.JSON_parse
                  Sample.now Sample.disabled Sample.noOptions eq_refl) "false");
    solve [reflexivity | discriminate].
Defined.



(** ** More on the options of a select control *)

Section SelectMore.

Lemma all_remove p s : Str.all (fun c => negb (p c)) (Str.remove p s) = true.
Proof.
  induction s as [|c s IH]; [reflexivity|].
  cbn [Str.remove]. destruct (p c) eqn:E; [exact IH|].
  cbn [Str.all]. rewrite E, IH. reflexivity.
Qed.

Lemma all_trimStart q s : Str.all q s = true -> Str.all q (Str.trimStart s) = true.
Proof.
  induction s as [|c s IH]; [reflexivity|].
  cbn [Str.trimStart]. destruct (Str.is_space c); [|auto].
  cbn [Str.all]. intros [_ H]%andb_true_iff. auto.
Qed.

Lemma all_trimEnd q s : Str.all q s = true -> Str.all q (Str.trimEnd s) = true.
Proof.
  induction s as [|c s IH]; [reflexivity|].
  cbn [Str.all Str.trimEnd]. intros [Hc Hs]%andb_true_iff.
  specialize (IH Hs). destruct (Str.trimEnd s) eqn:E.
  - destruct (Str.is_space c); [reflexivity|]. cbn [Str.all]. rewrite Hc. reflexivity.
  - cbn [Str.all] in *. rewrite Hc. exact IH.
Qed.

Lemma test_quoted_needs_quote cls s :
  Str.all (fun c => negb (Str.is_quote c)) s = true -> Str.test_quoted cls s = false.
Proof.
  induction s as [|c s IH]; [reflexivity|].
  cbn [Str.all Str.test_quoted]. intros [Hc Hs]%andb_true_iff.
  apply negb_true_iff in Hc. rewrite Hc, (IH Hs). reflexivity.
Qed.

(** X11: a select control always has at least one option, one per piece
    of the type text; an option made from a piece with a quoted word
    contains no single quote and no [|]; and stripping an option again
    changes nothing. *)
Theorem selectOptions_shape original :
  selectOptions original <> [] /\
  length (selectOptions original) = length (Str.split " | " original) /\
  (forall o, Str.test_quoted Str.is_word_or_hyphen o = true ->
             Str.all unquoted (selectOption o) = true) /\
  (forall o, selectOption (selectOption o) = selectOption o).
Proof.
  assert (Hclean : forall o, Str.test_quoted Str.is_word_or_hyphen o = true ->
                             Str.all unquoted (selectOption o) = true).
  { intros o Ho. unfold selectOption. rewrite Ho. unfold Str.trim.
    apply all_trimEnd, all_trimStart. apply all_remove. }
  repeat split.
  - unfold selectOptions, Str.split. intros H. apply map_eq_nil in H.
    exact (StrFacts.split_go_nonempty _ _ _ _ H).
  - unfold selectOptions. apply length_map.
  - exact Hclean.
  - intros o. destruct (Str.test_quoted Str.is_word_or_hyphen o) eqn:Ho.
    + unfold selectOption at 1.
      rewrite test_quoted_needs_quote; [reflexivity|].
      eapply StrFacts.all_impl; [|apply (Hclean o Ho)].
      intros c. unfold unquoted. rewrite negb_orb. intros [H _]%andb_true_iff. exact H.
    + unfold selectOption. rewrite Ho, Ho. reflexivity.
Qed.

End SelectMore.

Lemma selectOptions_shape_witness :
  Str.all unquoted (selectOption "Array<'a'>") = true.
Proof.
  apply (proj1 (proj2 (proj2 (selectOptions_shape "")))). reflexivity.
Defined.

(** ** More on the controls of a component *)

Section ComponentMore.

Variable camel : string -> string.
Variable JSON_parse : string -> option jsval.
Variable now : nat -> Z.





Lemma normalize_idempotent property : normalize (normalize property) = normalize property.
Proof.
  unfold normalize. destruct (attr property) eqn:E; cbn [attr]; rewrite ?E; reflexivity.
Qed.

(** X13: the normalization that [getPropsWithControlValues] writes into
    the descriptors is harmless to repeat: called again, at whatever time,
    on the component it left behind, it leaves the component as it is and
    returns the controls that the call on the original component would
    return at that time. *)
Theorem getPropsWithControlValues_repeated (later : nat -> Z) C opts :
  let first := getPropsWithControlValues camel JSON_parse now C opts in
  getPropsWithControlValues camel JSON_parse later (fst first) opts
  = (fst first, snd (getPropsWithControlValues camel JSON_parse later C opts)).
Proof.
  cbv zeta. unfold getPropsWithControlValues. cbn [fst snd name is_ properties].
  destruct (properties C) as [entries|]; cbn [option_map from_option id];
    [|reflexivity].
  f_equal.
  - f_equal. f_equal. rewrite map_map. apply map_ext. intros [k p]. cbn [fst snd].
    rewrite normalize_idempotent. reflexivity.
  - generalize {| args := []; argTypes := [] |}. generalize 0%nat.
    induction entries as [|[k p] entries IH]; intros i controls; [reflexivity|].
    cbn [map addControls fst snd]. rewrite IH. f_equal.
    unfold addControl. cbn [fst snd]. rewrite normalize_idempotent. reflexivity.
Qed.

End ComponentMore.


(** ** The elements that are created *)

Section DomMore.

Variable ToString : jsval -> string.
Variable browser : Dom.Rules.

Lemma set_assoc_fresh l k v :
  ~ In k (map fst l) -> Dom.set_assoc l k v = l ++ [(k, v)].
Proof.
  induction l as [|[k0 v0] l IH]; [reflexivity|].
  cbn [map fst In Dom.set_assoc]. intros Hnot.
  destruct (String.eqb_spec k0 k) as [->|_]; [tauto|].
  cbn [app]. f_equal. apply IH. tauto.
Qed.

Lemma remove_assoc_absent l k :
  ~ In k (map fst l) -> Dom.remove_assoc l k = l.
Proof.
  unfold Dom.remove_assoc. induction l as [|[k0 v0] l IH]; [reflexivity|].
  cbn [map fst In List.filter]. intros Hnot.
  destruct (String.eqb_spec k0 k) as [->|_]; [tauto|].
  cbn [negb]. f_equal. apply IH. tauto.
Qed.

Lemma applyProps_fields rename props :
  forall el el',
  applyProps ToString browser rename el props = Ok el' ->
  Dom.localName el' = Dom.localName el /\
  Dom.innerHTML el' = Dom.innerHTML el /\
  Dom.childNodes el' = Dom.childNodes el.
Proof.
  induction props as [|e props IH]; intros el el' H; cbn [applyProps] in H.
  - injection H as <-. auto.
  - destruct (Js.truthy (snd e)).
    + unfold Dom.setAttribute in H.
      destruct (Dom.validAttributeName browser (rename (fst e))); [|discriminate].
      destruct el as [t attrs html kids]. cbn [bind] in H.
      apply IH in H as (-> & -> & ->). auto.
    + cbn [bind] in H. apply IH in H as (-> & -> & ->). destruct el; auto.
Qed.

Lemma applyProps_fresh rename props :
  List.NoDup (map (attributeName rename) props) ->
  forall el el',
  (forall k, In k (map (attributeName rename) props) ->
             ~ In k (map fst (Dom.attributes el))) ->
  applyProps ToString browser rename el props = Ok el' ->
  Dom.attributes el'
  = Dom.attributes el
    ++ map (attributeOf ToString rename) (List.filter (fun e => Js.truthy (snd e)) props).
Proof.
  induction props as [|e props IH]; intros Hnd el el' Hfresh H; cbn [applyProps] in H.
  - injection H as <-. cbn [List.filter map]. rewrite app_nil_r. reflexivity.
  - cbn [map] in Hnd, Hfresh. apply List.NoDup_cons_iff in Hnd as [He Hnd].
    cbn [List.filter].
    pose proof (Hfresh _ (or_introl eq_refl)) as Hfe.
    destruct (Js.truthy (snd e)) eqn:Et.
    + unfold Dom.setAttribute in H.
      destruct (Dom.validAttributeName browser (rename (fst e))); [|discriminate].
      destruct el as [t attrs html kids]. cbn [bind] in H.
      cbn [Dom.attributes] in *. fold (attributeName rename e) in H.
      rewrite set_assoc_fresh in H by exact Hfe.
      apply IH in H; [| exact Hnd |].
      * rewrite H. cbn [Dom.attributes map]. rewrite <- app_assoc. reflexivity.
      * intros k Hk. cbn [Dom.attributes]. rewrite map_app. cbn [map fst].
        intros [Hold | [<- | []]]%in_app_or; [|contradiction].
        apply (Hfresh k (or_intror Hk) Hold).
    + cbn [bind] in H. destruct el as [t attrs html kids].
      cbn [Dom.removeAttribute Dom.attributes] in *. fold (attributeName rename e) in H.
      rewrite remove_assoc_absent in H by exact Hfe.
      apply IH in H; [exact H | exact Hnd |].
      intros k Hk. apply (Hfresh k (or_intror Hk)).
Qed.

Lemma applyProps_ok rename props :
  forall el,
  Forall (fun e => Dom.validAttributeName browser (rename (fst e)) = true)
    (List.filter (fun e => Js.truthy (snd e)) props) ->
  exists el', applyProps ToString browser rename el props = Ok el'.
Proof.
  induction props as [|e props IH]; intros el Hvalid; cbn [applyProps].
  - eauto.
  - cbn [List.filter] in Hvalid. destruct (Js.truthy (snd e)).
    + apply List.Forall_cons_iff in Hvalid as [He Hvalid].
      unfold Dom.setAttribute. rewrite He. destruct el. cbn [bind].
      apply IH, Hvalid.
    + cbn [bind]. apply IH, Hvalid.
Qed.

Lemma applyProps_raises rename props :
  forall el pre e post,
  List.filter (fun e => Js.truthy (snd e)) props = pre ++ e :: post ->
  Forall (fun e => Dom.validAttributeName browser (rename (fst e)) = true) pre ->
  Dom.validAttributeName browser (rename (fst e)) = false ->
  applyProps ToString browser rename el props
  = Throw (InvalidCharacterError (rename (fst e))).
Proof.
  induction props as [|x props IH]; intros el pre e post Hsplit Hpre He.
  - destruct pre; discriminate.
  - cbn [List.filter] in Hsplit. cbn [applyProps].
    destruct (Js.truthy (snd x)).
    + destruct pre as [|y pre]; cbn [app] in Hsplit; injection Hsplit as <- Hsplit.
      * unfold Dom.setAttribute. rewrite He. reflexivity.
      * apply List.Forall_cons_iff in Hpre as [Hy Hpre].
        unfold Dom.setAttribute. rewrite Hy. destruct el. cbn [bind].
        apply (IH _ pre e post Hsplit Hpre He).
    + cbn [bind]. apply (IH _ pre e post Hsplit Hpre He).
Qed.

(** X14: on a new element, the props written by the render function (or
    by [createNodes]) leave exactly one attribute per truthy prop, in the
    order of the props and with the value turned into a string, as long as
    the tag and the names of the truthy props are names the DOM accepts; a
    prop whose value is falsy ([false], [0], the empty string, [null],
    [undefined]) leaves no attribute, whatever its name, and nothing else
    of the element changes.  A tag that the DOM refuses raises an
    [InvalidCharacterError], and so does the first truthy prop whose name
    it refuses.  The attribute names of the props are taken to be
    distinct. *)
Theorem applyProps_attributes rename tagName props :
  List.NoDup (map (attributeName rename) props) ->
  let written := List.filter (fun e => Js.truthy (snd e)) props in
  let accepted := fun e => Dom.validAttributeName browser (rename (fst e)) in
  let built :=
    bind (Dom.createElement browser tagName)
      (fun el => applyProps ToString browser rename el props) in
  (Dom.validElementName browser tagName = true ->
   Forall (fun e => accepted e = true) written ->
   exists el,
     built = Ok el /\
     Dom.attributes el = map (attributeOf ToString rename) written /\
     (forall e, In e props -> Js.truthy (snd e) = false ->
                ~ In (attributeName rename e) (map fst (Dom.attributes el))) /\
     Dom.localName el = Str.toLowerCase tagName /\
     Dom.innerHTML el = EmptyString /\
     Dom.childNodes el = []) /\
  (Dom.validElementName browser tagName = false ->
   built = Throw (InvalidCharacterError tagName)) /\
  (Dom.validElementName browser tagName = true ->
   forall pre e post,
     written = pre ++ e :: post ->
     Forall (fun e => accepted e = true) pre ->
     accepted e = false ->
     built = Throw (InvalidCharacterError (rename (fst e)))).
Proof.
  intros Hnd. cbv zeta. unfold Dom.createElement. split; [|split].
  - intros -> Hvalid. cbn [bind].
    set (el0 := Dom.mkElement (Str.toLowerCase tagName) [] "" []).
    destruct (applyProps_ok rename props el0 Hvalid) as (el & Hel).
    exists el. split; [exact Hel|].
    assert (Hattrs :
      Dom.attributes el
      = map (attributeOf ToString rename)
          (List.filter (fun e => Js.truthy (snd e)) props)).
    { rewrite (applyProps_fresh rename props Hnd el0 el) by (auto; intros k _ []).
      reflexivity. }
    split; [exact Hattrs|]. split.
    + intros e Hin Hf. rewrite Hattrs, map_map. cbn [attributeOf fst].
      intros Hmem. apply in_map_iff in Hmem as (e' & Hname & Hin').
      apply List.filter_In in Hin' as [Hin' Ht'].
      assert (e' = e); [|subst; congruence].
      clear - Hnd Hin Hin' Hname.
      induction props as [|x props IH]; [contradiction|].
      cbn [map] in Hnd. apply List.NoDup_cons_iff in Hnd as [Hx Hnd].
      destruct Hin as [-> | Hin], Hin' as [-> | Hin']; auto.
      * exfalso. apply Hx. rewrite <- Hname. apply in_map. exact Hin'.
      * exfalso. apply Hx. rewrite Hname. apply in_map. exact Hin.
    + destruct (applyProps_fields rename props el0 el Hel) as (-> & -> & ->). auto.
  - intros ->. reflexivity.
  - intros -> pre e post Hsplit Hpre He. cbn [bind].
    apply (applyProps_raises rename props _ pre e post Hsplit Hpre He).
Qed.

Lemma createNode_eq tag innerText props children :
  createNode ToString browser (mkChild tag innerText props children)
  = bind (Dom.createElement browser (str ToString tag)) (fun childEl =>
    bind (applyOptionalProps ToString browser id
            (Dom.set_innerHTML childEl (markupOf ToString innerText)) props)
      (fun childEl => createNodes ToString browser childEl children)).
Proof.
  cbn [createNode].
  destruct (Dom.createElement browser (str ToString tag)) as [el|e];
    cbn [bind]; [|reflexivity].
  destruct (applyOptionalProps ToString browser id
              (Dom.set_innerHTML el (markupOf ToString innerText)) props)
    as [el'|e]; cbn [bind]; [|reflexivity].
  revert el'. induction children as [|c children IH]; intros el'; [reflexivity|].
  cbn [createNodes].
  destruct (createNode ToString browser c) as [node|e]; cbn [bind]; [|reflexivity].
  apply IH.
Qed.

Lemma createNodes_ok elements :
  forall el nodes,
  Forall2 (fun c node => createNode ToString browser c = Ok node) elements nodes ->
  createNodes ToString browser el elements
  = Ok (Dom.mkElement (Dom.localName el) (Dom.attributes el) (Dom.innerHTML el)
          (Dom.childNodes el ++ nodes)).
Proof.
  induction elements as [|c elements IH]; intros el nodes Hall;
    inversion Hall as [|? node ? nodes' Hc Hrest]; subst; cbn [createNodes].
  - rewrite app_nil_r. destruct el; reflexivity.
  - rewrite Hc. cbn [bind]. rewrite (IH _ nodes' Hrest).
    destruct el as [t attrs html kids]. cbn. rewrite <- app_assoc. reflexivity.
Qed.

Lemma createNodes_inv elements :
  forall el el',
  createNodes ToString browser el elements = Ok el' ->
  exists nodes,
    Forall2 (fun c node => createNode ToString browser c = Ok node) elements nodes /\
    el' = Dom.mkElement (Dom.localName el) (Dom.attributes el) (Dom.innerHTML el)
            (Dom.childNodes el ++ nodes).
Proof.
  induction elements as [|c elements IH]; intros el el' H; cbn [createNodes] in H.
  - injection H as <-. exists []. split; [constructor|].
    rewrite app_nil_r. destruct el; reflexivity.
  - destruct (createNode ToString browser c) as [node|e] eqn:Ec; [|discriminate].
    cbn [bind] in H. apply IH in H as (nodes & Hall & ->).
    exists (node :: nodes). split; [constructor; assumption|].
    destruct el as [t attrs html kids]. cbn. rewrite <- app_assoc. reflexivity.
Qed.

Lemma createNodes_raises elements :
  forall el pre c post nodes e,
  elements = pre ++ c :: post ->
  Forall2 (fun c node => createNode ToString browser c = Ok node) pre nodes ->
  createNode ToString browser c = Throw e ->
  createNodes ToString browser el elements = Throw e.
Proof.
  intros el pre c post nodes e -> Hpre Hc. revert el.
  induction Hpre as [|c0 node pre nodes Hc0 _ IH]; intros el;
    cbn [app createNodes].
  - rewrite Hc. reflexivity.
  - rewrite Hc0. cbn [bind]. apply IH.
Qed.

(** X15: [createNodes] appends one node per entry, in order, after the
    children the element already has, and changes nothing else of the
    element, when every entry gives a node; the first entry that raises
    ends it with that exception.  The node of an entry has the entry's tag
    as its name, its [innerText] as markup and the nodes of its own
    [children], in order, as child nodes; an entry whose tag the DOM
    refuses raises an [InvalidCharacterError].  An empty list of entries
    leaves the element as it is. *)
Theorem createNodes_children el elements :
  (forall nodes,
     Forall2 (fun c node => createNode ToString browser c = Ok node) elements nodes ->
     createNodes ToString browser el elements
     = Ok (Dom.mkElement (Dom.localName el) (Dom.attributes el) (Dom.innerHTML el)
             (Dom.childNodes el ++ nodes))) /\
  (forall pre c post nodes e,
     elements = pre ++ c :: post ->
     Forall2 (fun c node => createNode ToString browser c = Ok node) pre nodes ->
     createNode ToString browser c = Throw e ->
     createNodes ToString browser el elements = Throw e) /\
  createNodes ToString browser el [] = Ok el /\
  (forall tag innerText props children node,
     createNode ToString browser (mkChild tag innerText props children) = Ok node ->
     Dom.validElementName browser (str ToString tag) = true /\
     Dom.localName node = Str.toLowerCase (str ToString tag) /\
     Dom.innerHTML node = markupOf ToString innerText /\
     Forall2 (fun c kid => createNode ToString browser c = Ok kid) children
       (Dom.childNodes node) /\
     (props = None -> Dom.attributes node = [])) /\
  (forall tag innerText props children,
     Dom.validElementName browser (str ToString tag) = false ->
     createNode ToString browser (mkChild tag innerText props children)
     = Throw (InvalidCharacterError (str ToString tag))).
Proof.
  split; [|split; [|split; [|split]]].
  - intros nodes. apply createNodes_ok.
  - intros pre c post nodes e. apply createNodes_raises.
  - reflexivity.
  - intros tag innerText props children node. rewrite createNode_eq.
    unfold Dom.createElement.
    destruct (Dom.validElementName browser (str ToString tag)); [|discriminate].
    cbn [bind Dom.set_innerHTML]. intros H. split; [reflexivity|].
    destruct (applyOptionalProps ToString browser id
                (Dom.mkElement (Str.toLowerCase (str ToString tag)) []
                   (markupOf ToString innerText) []) props) as [el'|e] eqn:Eprops;
      [|discriminate].
    cbn [bind] in H. apply createNodes_inv in H as (nodes & Hall & ->).
    cbn [Dom.localName Dom.innerHTML Dom.childNodes Dom.attributes].
    assert (Hfields :
      Dom.localName el' = Str.toLowerCase (str ToString tag) /\
      Dom.innerHTML el' = markupOf ToString innerText /\
      Dom.childNodes el' = [] /\
      (props = None -> Dom.attributes el' = [])).
    { destruct props as [props|]; cbn [applyOptionalProps] in Eprops.
      - apply applyProps_fields in Eprops as (-> & -> & ->).
        repeat split. discriminate.
      - injection Eprops as <-. repeat split. }
    destruct Hfields as (-> & -> & -> & Hattrs). auto.
  - intros tag innerText props children Htag. rewrite createNode_eq.
    unfold Dom.createElement. rewrite Htag. reflexivity.
Qed.

End DomMore.

Lemma applyProps_attributes_witness :
  (exists el,
     bind (Dom.createElement Sample.browser "my-button")
       (fun el => applyProps Sample.ToString Sample.browser Sample.kebab el
                    [("color", VStr "secondary"); ("disabled", VBool false)])
     = Ok el /\
     Dom.attributes el = [("color", "secondary")]) /\
  bind (Dom.createElement Sample.browser "my-button")
    (fun el => applyProps Sample.ToString Sample.browser Sample.kebab el
                 [("color", VStr "secondary"); ("data x", VStr "1")])
  = Throw (InvalidCharacterError "data x").
Proof.
  split.
  - destruct (proj1 (applyProps_attributes Sample.ToString Sample.browser Sample.kebab
                       "my-button"
                       [("color", VStr "secondary"); ("disabled", VBool false)]
                       ltac:(repeat constructor; simpl; intuition discriminate))
                eq_refl ltac:(repeat constructor))
      as (el & Hel & Hattrs & _).
    exists el. split; [exact Hel | exact Hattrs].
  - apply (proj2 (proj2 (applyProps_attributes Sample.ToString Sample.browser
                           Sample.kebab "my-button"
                           [("color", VStr "secondary"); ("data x", VStr "1")]
                           ltac:(repeat constructor; simpl; intuition discriminate)))
             eq_refl [("color", VStr "secondary")] ("data x", VStr "1") [] eq_refl
             ltac:(repeat constructor) eq_refl).
Defined.

Lemma createNodes_children_witness :
  createNodes Sample.ToString Sample.browser (Dom.mkElement "div" [] "" [])
    [mkChild (VStr "span") (VStr "Default") None []]
  = Ok (Dom.mkElement "div" [] "" [Dom.mkElement "span" [] "Default" []]) /\
  createNodes Sample.ToString Sample.browser (Dom.mkElement "div" [] "" [])
    [mkChild (VStr "span") (VStr "Icon") (Some [("data x", VStr "1")]) []]
  = Throw (InvalidCharacterError "data x").
Proof.
  split.
  - apply (proj1 (createNodes_children Sample.ToString Sample.browser
                    (Dom.mkElement "div" [] "" [])
                    [mkChild (VStr "span") (VStr "Default") None []])
             [Dom.mkElement "span" [] "Default" []]).
    repeat constructor.
  - apply (proj1 (proj2 (createNodes_children Sample.ToString Sample.browser
                           (Dom.mkElement "div" [] "" [])
                           [mkChild (VStr "span") (VStr "Icon")
                              (Some [("data x", VStr "1")]) []]))
             [] _ [] [] _ eq_refl ltac:(constructor)).
    reflexivity.
Defined.

(** ** Stories and the caller's states *)

Section StoryMore.

Variable camel : string -> string.
Variable kebab : string -> string.
Variable JSON_parse : string -> option jsval.
Variable now : nat -> Z.
Variable ToString : jsval -> string.
Variable browser : Dom.Rules.

Lemma story_inv_update h0 C cl items first h l c :
  story_inv h0 C cl items first h ->
  l ∈ dom h0 ->
  story_inv (<[l := c]> h0) C cl items first (<[l := c]> h).
Proof.
  intros [Hm Hs Hf Hms Hmf Hsf Harr (props & aT & Hdef) Hframe] Hl.
  assert (Hdom : dom (<[l := c]> h0) = dom h0).
  { apply set_eq. intros x. rewrite dom_insert_L, elem_of_union, elem_of_singleton.
    split; [intros [-> | Hx]; assumption | auto]. }
  constructor; try assumption; rewrite ?Hdom; try assumption.
  - rewrite lookup_insert_ne by (intros Heq; apply Hs; rewrite <- Heq; exact Hl).
    exact Harr.
  - exists props, aT.
    rewrite lookup_insert_ne by (intros Heq; apply Hf; rewrite <- Heq; exact Hl).
    exact Hdef.
  - intros l' Hl'. destruct (decide (l = l')) as [<-|Hne].
    + rewrite !lookup_insert_eq. reflexivity.
    + rewrite !lookup_insert_ne by exact Hne. apply Hframe, Hl'.
Qed.

(** X16: the story's array is a shallow copy.  When, after
    [createStencilStory], the caller overwrites one of its own cells, be it
    one of the state objects or the array of states itself, the next
    render goes through the default state followed by the states that the
    element references taken at creation lead to now: a changed state
    object shows up changed, and a change to the caller's array does not
    show at all.  The main element holds the containers of these states,
    all of them when each one renders. *)
Theorem createStencilStory_shares_states config stories h items l c given args :
  cloneStates h (cfg_states config) = Some items ->
  l ∈ dom h ->
  mapM (stateAt (<[l := c]> h)) items = Some given ->
  let tag := is_ (cfg_Component config) in
  let states :=
    defaultStateWith (cfg_Component config) (Some args)
      (plain (argTypes (controlsOf camel JSON_parse now config)))
    :: given in
  let rendered := renderStates kebab ToString browser tag states in
  exists h1 story C' h3,
    createStencilStory camel JSON_parse now config stories h
    = Some (h1, stories ++ [story], C') /\
    render kebab ToString browser (story_render story) args (<[l := c]> h1)
    = Some (h3, renderOutcome (cl_mainEl (story_render story)) (snd rendered)) /\
    h3 !! cl_mainEl (story_render story) = Some (CMain (fst rendered)) /\
    (forall containers,
       Forall2 (fun s container =>
                  renderState kebab ToString browser tag s = Ok container)
         states containers ->
       rendered = (containers, Ok tt)).
Proof.
  intros Hclone Hl Hgiven.
  destruct (createStencilStory_inv camel JSON_parse now config stories h items Hclone)
    as (h1 & story & C' & first & Hcreate & _ & Htag & HaT & Hinv).
  pose proof (story_inv_update _ _ _ _ _ _ l c Hinv Hl) as Hinv'.
  destruct (render_inv kebab ToString browser _ _ _ _ _ _ _ args Hinv' Hgiven)
    as (h3 & Hrender & _ & Hmain).
  cbv zeta in *. rewrite Htag, HaT in Hrender, Hmain.
  exists h1, story, C', h3. split; [exact Hcreate|]. split; [exact Hrender|].
  split; [exact Hmain|]. intros containers. apply renderStates_all.
Qed.

Lemma render_effect h0 C cl items first h given args :
  story_inv h0 C cl items first h ->
  mapM (stateAt h0) items = Some given ->
  let rendered :=
    renderStates kebab ToString browser (cl_tag cl)
      (defaultStateWith C (Some args) (plain (cl_argTypes cl)) :: given) in
  render kebab ToString browser cl args h
  = Some (<[cl_mainEl cl := CMain (fst rendered)]>
            (<[first := CState (defaultStateWith C (Some args)
                                  (plain (cl_argTypes cl)))]> h),
          renderOutcome (cl_mainEl cl) (snd rendered)).
Proof.
  intros [Hm Hs Hf Hms Hmf Hsf Harr (props & aT & Hdef) Hframe] Hgiven.
  set (s0' := defaultStateWith C (Some args) (plain (cl_argTypes cl))).
  set (h1 := <[first := CState s0']> h).
  assert (Hitems : mapM (stateAt h1) items = Some given).
  { rewrite <- Hgiven. apply mapM_stateAt_agree.
    eapply Forall_impl; [apply (mapM_stateAt_dom _ _ _ Hgiven)|].
    intros l Hl. cbn beta in Hl. unfold h1.
    rewrite lookup_insert_ne by (intros <-; contradiction).
    apply Hframe, Hl. }
  assert (Hall : mapM (stateAt h1) (first :: items) = Some (s0' :: given)).
  { apply mapM_Some_2. constructor.
    - unfold stateAt, h1. rewrite lookup_insert_eq. reflexivity.
    - apply mapM_Some_1, Hitems. }
  cbv zeta. unfold render. rewrite Harr. unfold stateAt at 1. rewrite Hdef.
  change (mkState _ _ _ (Some args) _ (plain (cl_argTypes cl))) with s0'.
  fold h1. rewrite Hall.
  destruct (renderStates kebab ToString browser (cl_tag cl) (s0' :: given));
    reflexivity.
Qed.

(** X17: a render of the story writes two cells and no other: the main
    element and the story's own default state, neither of which the caller
    had; this holds whether the render returns the main element or raises
    at one of the states.  Rendering once more with the same args changes
    nothing at all and ends the same way. *)
Theorem render_writes_two_cells config stories h items given argss args :
  cloneStates h (cfg_states config) = Some items ->
  mapM (stateAt h) items = Some given ->
  let rendered :=
    renderStates kebab ToString browser (is_ (cfg_Component config))
      (defaultStateWith (cfg_Component config) (Some args)
         (plain (argTypes (controlsOf camel JSON_parse now config)))
       :: given) in
  exists h1 story C' h2 h3 first,
    let outcome := renderOutcome (cl_mainEl (story_render story)) (snd rendered) in
    createStencilStory camel JSON_parse now config stories h
    = Some (h1, stories ++ [story], C') /\
    renders kebab ToString browser (story_render story) argss h1 = Some h2 /\
    render kebab ToString browser (story_render story) args h2 = Some (h3, outcome) /\
    (cl_mainEl (story_render story) ∉ dom h) /\
    (first ∉ dom h) /\
    (forall l, l <> cl_mainEl (story_render story) -> l <> first ->
               h3 !! l = h2 !! l) /\
    render kebab ToString browser (story_render story) args h3 = Some (h3, outcome).
Proof.
  intros Hclone Hgiven.
  destruct (createStencilStory_inv camel JSON_parse now config stories h items Hclone)
    as (h1 & story & C' & first & Hcreate & _ & Htag & HaT & Hinv).
  destruct (renders_inv kebab ToString browser _ _ _ _ _ _ argss Hgiven h1 Hinv)
    as (h2 & Hrenders & Hinv2).
  pose proof (render_effect _ _ _ _ _ _ _ args Hinv2 Hgiven) as Hrender.
  destruct (render_inv kebab ToString browser _ _ _ _ _ _ _ args Hinv2 Hgiven)
    as (h3 & Hrender' & Hinv3 & _).
  pose proof (render_effect _ _ _ _ _ _ _ args Hinv3 Hgiven) as Hagain.
  cbv zeta in *. rewrite Htag, HaT in Hrender, Hrender', Hagain.
  assert (Hh3 : Some (h3, _) = _) by (rewrite <- Hrender'; exact Hrender).
  injection Hh3 as Hh3.
  exists h1, story, C', h2, h3, first.
  split; [exact Hcreate|]. split; [exact Hrenders|]. split; [exact Hrender'|].
  split; [apply (inv_mainEl_new _ _ _ _ _ _ Hinv)|].
  split; [apply (inv_first_new _ _ _ _ _ _ Hinv)|].
  split.
  - intros l Hl1 Hl2. rewrite Hh3.
    rewrite !lookup_insert_ne by congruence. reflexivity.
  - rewrite Hagain. f_equal. f_equal. rewrite Hh3.
    rewrite (insert_insert_ne _ first (cl_mainEl (story_render story)))
      by (intros Heq; apply (inv_mainEl_first _ _ _ _ _ _ Hinv); congruence).
    rewrite !insert_insert_eq. reflexivity.
Qed.

Lemma renderStates_raises tag pre s post containers e :
  Forall2 (fun s container => renderState kebab ToString browser tag s = Ok container)
    pre containers ->
  renderState kebab ToString browser tag s = Throw e ->
  renderStates kebab ToString browser tag (pre ++ s :: post) = (containers, Throw e).
Proof.
  intros Hpre Hs.
  induction Hpre as [|s0 container pre containers Hs0 _ IH]; cbn [app renderStates].
  - rewrite Hs. reflexivity.
  - rewrite Hs0, IH. reflexivity.
Qed.

(** X19: a state that does not render ends the render: when the states
    before it render and it raises, the render function raises the same
    exception instead of returning the main element, and the main element
    is left with the containers of the states before it and no other. *)
Theorem render_stops_at_failing_state
  config stories h items given argss args pre s post containers e :
  cloneStates h (cfg_states config) = Some items ->
  mapM (stateAt h) items = Some given ->
  let tag := is_ (cfg_Component config) in
  defaultStateWith (cfg_Component config) (Some args)
    (plain (argTypes (controlsOf camel JSON_parse now config)))
  :: given = pre ++ s :: post ->
  Forall2 (fun s container => renderState kebab ToString browser tag s = Ok container)
    pre containers ->
  renderState kebab ToString browser tag s = Throw e ->
  exists h1 story C' h2 h3,
    createStencilStory camel JSON_parse now config stories h
    = Some (h1, stories ++ [story], C') /\
    renders kebab ToString browser (story_render story) argss h1 = Some h2 /\
    render kebab ToString browser (story_render story) args h2 = Some (h3, Throw e) /\
    h3 !! cl_mainEl (story_render story) = Some (CMain containers) /\
    length containers < S (length items).
Proof.
  intros Hclone Hgiven tag Hsplit Hpre Hs.
  destruct (createStencilStory_inv camel JSON_parse now config stories h items Hclone)
    as (h1 & story & C' & first & Hcreate & _ & Htag & HaT & Hinv).
  destruct (renders_inv kebab ToString browser _ _ _ _ _ _ argss Hgiven h1 Hinv)
    as (h2 & Hrenders & Hinv2).
  destruct (render_inv kebab ToString browser _ _ _ _ _ _ _ args Hinv2 Hgiven)
    as (h3 & Hrender & _ & Hmain).
  cbv zeta in Hrender, Hmain. rewrite Htag, HaT in Hrender, Hmain.
  fold tag in Hrender, Hmain.
  rewrite Hsplit, (renderStates_raises tag pre s post containers e Hpre Hs)
    in Hrender, Hmain.
  exists h1, story, C', h2, h3. repeat split; try assumption.
  apply Forall2_length in Hpre. rewrite <- Hpre.
  apply (f_equal (@length State)) in Hsplit.
  rewrite length_app in Hsplit. cbn [length] in Hsplit.
  pose proof (length_mapM _ _ _ Hgiven) as Hlength. lia.
Qed.

End StoryMore.

Lemma createStencilStory_shares_states_witness :
  (exists h1 story C' h3,
     createStencilStory Sample.camel Sample.JSON_parse Sample.clock Sample.config []
       Sample.callerHeap = Some (h1, [story], C') /\
     render Sample.kebab Sample.ToString Sample.browser (story_render story)
       Sample.liveArgs (<[2%positive := CState Sample.danger]> h1)
     = Some (h3, Ok (cl_mainEl (story_render story))) /\
     h3 !! cl_mainEl (story_render story)
     = Some (CMain [Sample.defaultContainer; Sample.dangerContainer])) /\
  (exists h1 story C' h3,
     createStencilStory Sample.camel Sample.JSON_parse Sample.clock Sample.config []
       Sample.callerHeap = Some (h1, [story], C') /\
     render Sample.kebab Sample.ToString Sample.browser (story_render story)
       Sample.liveArgs (<[1%positive := CArr []]> h1)
     = Some (h3, Ok (cl_mainEl (story_render story))) /\
     h3 !! cl_mainEl (story_render story)
     = Some (CMain [Sample.defaultContainer; Sample.secondaryContainer])).
Proof.
  split.
  - destruct (createStencilStory_shares_states Sample.camel Sample.kebab
                Sample.JSON_parse Sample.clock Sample.ToString Sample.browser
                Sample.config [] Sample.callerHeap [2%positive] 2%positive
                (CState Sample.danger) [Sample.danger] Sample.liveArgs
                ltac:(vm_compute; reflexivity) ltac:(vm_compute; reflexivity)
                ltac:(vm_compute; reflexivity))
      as (h1 & story & C' & h3 & Hcreate & Hrender & Hmain & Hall).
    rewrite (Hall [Sample.defaultContainer; Sample.dangerContainer]
               ltac:(repeat constructor)) in Hrender, Hmain.
    exists h1, story, C', h3. repeat split; assumption.
  - destruct (createStencilStory_shares_states Sample.camel Sample.kebab
                Sample.JSON_parse Sample.clock Sample.ToString Sample.browser
                Sample.config [] Sample.callerHeap [2%positive] 1%positive
                (CArr []) [Sample.secondary] Sample.liveArgs
                ltac:(vm_compute; reflexivity) ltac:(vm_compute; reflexivity)
                ltac:(vm_compute; reflexivity))
      as (h1 & story & C' & h3 & Hcreate & Hrender & Hmain & Hall).
    rewrite (Hall [Sample.defaultContainer; Sample.secondaryContainer]
               ltac:(repeat constructor)) in Hrender, Hmain.
    exists h1, story, C', h3. repeat split; assumption.
Defined.

Lemma render_writes_two_cells_witness :
  exists h1 story C' h2 h3 outcome,
    createStencilStory Sample.camel Sample.JSON_parse Sample.clock Sample.config []
      Sample.callerHeap = Some (h1, [story], C') /\
    renders Sample.kebab Sample.ToString Sample.browser (story_render story) [[]] h1
    = Some h2 /\
    render Sample.kebab Sample.ToString Sample.browser (story_render story)
      Sample.liveArgs h2
    = Some (h3, outcome) /\
    render Sample.kebab Sample.ToString Sample.browser (story_render story)
      Sample.liveArgs h3
    = Some (h3, outcome).
Proof.
  destruct (render_writes_two_cells Sample.camel Sample.kebab Sample.JSON_parse
              Sample.clock Sample.ToString Sample.browser Sample.config []
              Sample.callerHeap [2%positive] [Sample.secondary] [[]] Sample.liveArgs
              ltac:(vm_compute; reflexivity) ltac:(vm_compute; reflexivity))
    as (h1 & story & C' & h2 & h3 & first & Hc & Hrs & Hr & _ & _ & _ & Hagain).
  exists h1, story, C', h2, h3. eexists. repeat split; eassumption.
Defined.

Lemma render_stops_at_failing_state_witness :
  exists h1 story C' h3,
    createStencilStory Sample.camel Sample.JSON_parse Sample.clock Sample.spacedConfig []
      Sample.spacedHeap = Some (h1, [story], C') /\
    render Sample.kebab Sample.ToString Sample.browser (story_render story)
      Sample.liveArgs h1
    = Some (h3, Throw (InvalidCharacterError "data x")) /\
    h3 !! cl_mainEl (story_render story)
    = Some (CMain [Sample.defaultContainer; Sample.secondaryContainer]).
Proof.
  destruct (render_stops_at_failing_state Sample.camel Sample.kebab Sample.JSON_parse
              Sample.clock Sample.ToString Sample.browser Sample.spacedConfig []
              Sample.spacedHeap [2%positive; 3%positive]
              [Sample.secondary; Sample.spaced] [] Sample.liveArgs
              [defaultStateWith Sample.MyButtonComponent (Some Sample.liveArgs)
                 (plain (argTypes (controlsOf Sample.camel Sample.JSON_parse
                                     Sample.clock Sample.spacedConfig)));
               Sample.secondary]
              Sample.spaced []
              [Sample.defaultContainer; Sample.secondaryContainer]
              (InvalidCharacterError "data x")
              ltac:(vm_compute; reflexivity) ltac:(vm_compute; reflexivity)
              eq_refl ltac:(repeat constructor) eq_refl)
    as (h1 & story & C' & h2 & h3 & Hcreate & Hrenders & Hrender & Hmain & _).
  cbn [renders] in Hrenders. injection Hrenders as <-.
  exists h1, story, C', h3. repeat split; assumption.
Defined.

(** ** The template and the case of letters *)

Section TemplateFacts.

Variable ToString : jsval -> string.







End TemplateFacts.


